(** * crop_cells: corner scan and crop geometry

    A shallow embedding of [crop_cells.py]: the corner scanner
    [find_non_black_pixels], the boundary arithmetic and slicing of
    [crop_and_save], and the output file name built with
    [os.path.splitext].

    Python integers are [Z].  A NumPy image is its shape together with a pixel
    lookup; indexing follows NumPy: an index [i] on an axis of size [n] is
    accepted when [-n <= i < n], negative indices count from the end, and any
    other index raises [IndexError]. *)

From Stdlib Require Import ZArith List Bool Lia String Ascii.
Import ListNotations.

Local Open Scope Z_scope.

(** ** Exceptions *)

Module Exn.

(** The exceptions a run can end in: [IndexError] from indexing an image,
    and [cv2.error] from the encoder. *)
Inductive exn : Type :=
| IndexError
| Cv2Error.

Inductive result (A : Type) : Type :=
| Return (a : A)
| Raise (e : exn).

Arguments Return {A} a.
Arguments Raise {A} e.

Definition bind {A B : Type} (m : result A) (k : A -> result B) : result B :=
  match m with
  | Return a => k a
  | Raise e => Raise e
  end.

End Exn.

Import Exn.

Notation "x <- m ;; k" := (bind m (fun x => k))
  (at level 61, m at next level, right associativity).

(** ** Images *)

(** A pixel is the list of its channel values (three for a BGR image, one for a
    grey image). *)
Definition pixel : Type := list Z.

(** [image.shape[:2]] and the pixel stored at each in-range position. *)
Record image : Type := mkImage {
  height : nat;
  width : nat;
  px : nat -> nat -> pixel
}.

(** An image given by its rows; positions outside the rows read as []. *)
Definition of_rows (w : nat) (rows : list (list pixel)) : image :=
  mkImage (List.length rows) w (fun r c => nth c (nth r rows []) []).

(** NumPy's treatment of one integer index on an axis of size [n]. *)
Definition axis_index (i : Z) (n : nat) : result nat :=
  if (0 <=? i) && (i <? Z.of_nat n) then Return (Z.to_nat i)
  else if (- Z.of_nat n <=? i) && (i <? 0) then Return (Z.to_nat (i + Z.of_nat n))
  else Raise IndexError.

(** [image[r, c]] *)
Definition getitem (img : image) (r c : Z) : result pixel :=
  r' <- axis_index r (height img) ;;
  c' <- axis_index c (width img) ;;
  Return (px img r' c').

(** ** Corner scanner *)

(** The value of the variable [axis]: [''], ['horizontal'] or ['vertical']. *)
Inductive axis : Type :=
| NoAxis
| Horizontal
| Vertical.

Definition axis_eqb (a b : axis) : bool :=
  match a, b with
  | NoAxis, NoAxis | Horizontal, Horizontal | Vertical, Vertical => true
  | _, _ => false
  end.

(** A corner report [(index, axis)]. *)
Definition report : Type := (Z * axis)%type.

(** The dictionary [results]; its keys are exactly these four. *)
Record reports : Type := mkReports {
  top_left : report;
  top_right : report;
  bottom_left : report;
  bottom_right : report
}.

Inductive corner : Type :=
| TopLeft
| TopRight
| BottomLeft
| BottomRight.

Definition report_of (c : corner) (rs : reports) : report :=
  match c with
  | TopLeft => top_left rs
  | TopRight => top_right rs
  | BottomLeft => bottom_left rs
  | BottomRight => bottom_right rs
  end.

(** [np.all(pixel <= tolerance)] *)
Definition is_black_pixel (p : pixel) (tolerance : Z) : bool :=
  forallb (fun ch => ch <=? tolerance) p.

(** [range(n)] *)
Definition range (n : nat) : list Z := map Z.of_nat (seq 0 n).

(** The index pair of the first test of a corner's loop body at [x]. *)
Definition horizontal_index (c : corner) (img : image) (x : Z) : Z * Z :=
  let h := Z.of_nat (height img) in
  let w := Z.of_nat (width img) in
  match c with
  | TopLeft => (0, x)
  | TopRight => (0, w - x - 1)
  | BottomLeft => (h - 1, x)
  | BottomRight => (h - 1, w - x - 1)
  end.

(** The index pair of the second test of a corner's loop body at [x]. *)
Definition vertical_index (c : corner) (img : image) (x : Z) : Z * Z :=
  let h := Z.of_nat (height img) in
  let w := Z.of_nat (width img) in
  match c with
  | TopLeft => (x, 0)
  | TopRight => (x, w - 1)
  | BottomLeft => (h - x - 1, 0)
  | BottomRight => (h - x - 1, w - 1)
  end.

(** One pass through a loop body: [Some] is an assignment to
    [(index, axis)] followed by [break], [None] falls through to the next
    [x]. *)
Definition scan_body (img : image) (tolerance : Z) (c : corner) (x : Z)
  : result (option report) :=
  p <- getitem img (fst (horizontal_index c img x)) (snd (horizontal_index c img x)) ;;
  if negb (is_black_pixel p tolerance) then Return (Some (x, Horizontal))
  else
    q <- getitem img (fst (vertical_index c img x)) (snd (vertical_index c img x)) ;;
    if negb (is_black_pixel q tolerance) then Return (Some (x, Vertical))
    else Return None.

(** [for x in xs: ...] with [break]; [acc] is the value of [(index, axis)] on
    entry, which survives a loop that never breaks. *)
Fixpoint for_break (body : Z -> result (option report)) (xs : list Z)
  (acc : report) : result report :=
  match xs with
  | [] => Return acc
  | x :: xs' =>
      r <- body x ;;
      match r with
      | Some hit => Return hit
      | None => for_break body xs' acc
      end
  end.

(** The loop of one corner, [for x in range(width)]. *)
Definition scan_corner (img : image) (tolerance : Z) (c : corner)
  (acc : report) : result report :=
  for_break (scan_body img tolerance c) (range (width img)) acc.

(** [find_non_black_pixels(image, tolerance)].  [index] and [axis] are
    assigned [0] and [''] once, before the first loop, and are carried from
    one loop into the next. *)
Definition find_non_black_pixels (img : image) (tolerance : Z) : result reports :=
  tl <- scan_corner img tolerance TopLeft (0, NoAxis) ;;
  tr <- scan_corner img tolerance TopRight tl ;;
  bl <- scan_corner img tolerance BottomLeft tr ;;
  br <- scan_corner img tolerance BottomRight bl ;;
  Return (mkReports tl tr bl br).

(** ** Crop resolver *)

(** The four boundaries computed by [crop_and_save]. *)
Record box : Type := mkBox {
  left : Z;
  right : Z;
  top : Z;
  bottom : Z
}.

(** The boundary arithmetic of [crop_and_save]: each [let] is one assignment
    of the source, in order. *)
Definition crop_box (non_black : reports) (width height crop_tolerance : Z) : box :=
  let left := 0 in
  let right := width in
  let top := 0 in
  let bottom := height in
  let left :=
    if axis_eqb (snd (top_left non_black)) Horizontal
    then fst (top_left non_black) + crop_tolerance else left in
  let left :=
    if axis_eqb (snd (bottom_left non_black)) Horizontal
    then Z.max left (fst (bottom_left non_black) + crop_tolerance) else left in
  let right :=
    if axis_eqb (snd (top_right non_black)) Horizontal
    then width - fst (top_right non_black) - crop_tolerance else right in
  let right :=
    if axis_eqb (snd (bottom_right non_black)) Horizontal
    then Z.min right (width - fst (bottom_right non_black) - crop_tolerance) else right in
  let top :=
    if axis_eqb (snd (top_left non_black)) Vertical
    then fst (top_left non_black) + crop_tolerance else top in
  let top :=
    if axis_eqb (snd (top_right non_black)) Vertical
    then Z.max top (fst (top_right non_black) + crop_tolerance) else top in
  let bottom :=
    if axis_eqb (snd (bottom_left non_black)) Vertical
    then height - fst (bottom_left non_black) - crop_tolerance else bottom in
  let bottom :=
    if axis_eqb (snd (bottom_right non_black)) Vertical
    then Z.min bottom (height - fst (bottom_right non_black) - crop_tolerance) else bottom in
  mkBox left right top bottom.

(** ** Slicing *)

(** Where a slice bound [i] lands on an axis of size [n]: a negative bound
    counts from the end, and the result is clipped to [0 .. n].  Slicing never
    raises. *)
Definition slice_bound (i : Z) (n : nat) : nat :=
  if i <? 0 then Z.to_nat (Z.max 0 (i + Z.of_nat n))
  else Z.to_nat (Z.min i (Z.of_nat n)).

(** [image[top:bottom, left:right]] *)
Definition image_slice (img : image) (top bottom left right : Z) : image :=
  let r0 := slice_bound top (height img) in
  let r1 := slice_bound bottom (height img) in
  let c0 := slice_bound left (width img) in
  let c1 := slice_bound right (width img) in
  mkImage (r1 - r0) (c1 - c0) (fun r c => px img (r0 + r)%nat (c0 + c)%nat).

(** ** File names *)

Local Open Scope string_scope.

Fixpoint str_take (n : nat) (s : string) : string :=
  match n, s with
  | S n', String c s' => String c (str_take n' s')
  | _, _ => ""
  end.

Fixpoint str_drop (n : nat) (s : string) : string :=
  match n, s with
  | S n', String _ s' => str_drop n' s'
  | _, _ => s
  end.

(** [s[i:j]] *)
Definition str_slice (s : string) (i j : Z) : string :=
  let a := slice_bound i (String.length s) in
  let b := slice_bound j (String.length s) in
  str_take (b - a) (str_drop a s).

(** [s[:j]] *)
Definition str_upto (s : string) (j : Z) : string :=
  str_take (slice_bound j (String.length s)) s.

(** [s[i:]] *)
Definition str_from (s : string) (i : Z) : string :=
  str_drop (slice_bound i (String.length s)) s.

(** [rfind_from ch s i last] scans [s], whose first character has index [i],
    and returns the index of the last [ch], or [last] when there is none. *)
Fixpoint rfind_from (ch : ascii) (s : string) (i : Z) (last : Z) : Z :=
  match s with
  | EmptyString => last
  | String c s' => rfind_from ch s' (i + 1) (if Ascii.eqb c ch then i else last)
  end.

(** [s.rfind(ch)] for a one-character [ch]: [-1] when absent. *)
Definition rfind (ch : ascii) (s : string) : Z := rfind_from ch s 0 (-1).

(** The [while filenameIndex < dotIndex] loop of the library's [_splitext],
    with [n] the number of iterations left: [true] when a character other
    than the extension separator is met, which is where the source returns
    the split. *)
Fixpoint skip_leading_dots (p : string) (n : nat) (filenameIndex : Z) : bool :=
  match n with
  | O => false
  | S n' =>
      if negb (String.eqb (str_slice p filenameIndex (filenameIndex + 1)) ".")
      then true
      else skip_leading_dots p n' (filenameIndex + 1)
  end.

(** [os.path.splitext] on a POSIX system ([sep = '/'], no [altsep],
    [extsep = '.']). *)
Definition splitext (p : string) : string * string :=
  let sepIndex := rfind "/"%char p in
  let dotIndex := rfind "."%char p in
  if (dotIndex >? sepIndex)
     && skip_leading_dots p (Z.to_nat (dotIndex - (sepIndex + 1))) (sepIndex + 1)
  then (str_upto p dotIndex, str_from p dotIndex)
  else (p, str_upto p 0).

(** [f"{base}_cropped{ext}"] *)
Definition cropped_filename (image_filename : string) : string :=
  let (base, ext) := splitext image_filename in
  base ++ "_cropped" ++ ext.

Local Close Scope string_scope.

(** ** Crop and save *)

Section CropAndSave.

(** The image encoder [cv2.imwrite] is outside the program: it is taken as
    it comes, with whatever outcome [R] it has. *)
Variable R : Type.
Variable imwrite : string -> image -> R.

(** [crop_and_save(image, non_black, image_filename, crop_tolerance)], the
    two status lines apart.  The outcome is that of the call of
    [imwrite]. *)
Definition crop_and_save (img : image) (non_black : reports)
  (image_filename : string) (crop_tolerance : Z) : R :=
  let b := crop_box non_black (Z.of_nat (width img)) (Z.of_nat (height img))
                    crop_tolerance in
  let cropped_image := image_slice img (top b) (bottom b) (left b) (right b) in
  imwrite (cropped_filename image_filename) cropped_image.

End CropAndSave.

(** ** The encoder *)

Section Encoder.

(** What [cv2.imwrite] takes from outside the program: whether the library
    can encode a given image under a given name (it goes by the extension
    of the name and by the channels of the image), and what writing the file
    then comes to, the returned flag included. *)
Variable R : Type.
Variable encodable : string -> image -> bool.
Variable write : string -> image -> R.

(** [cv2.imwrite(filename, img)]: an image without pixels, and an image the
    library has no encoder for under that name, end in [cv2.error]; any
    other image is written. *)
Definition cv2_imwrite (filename : string) (img : image) : result R :=
  if (Nat.eqb (height img) 0 || Nat.eqb (width img) 0)%bool then Raise Cv2Error
  else if encodable filename img then Return (write filename img)
  else Raise Cv2Error.

End Encoder.

(** ** Test images *)

Definition black : pixel := [0; 0; 0].
Definition red : pixel := [31; 31; 255].

(** A 10x10 image: a 6x6 block of [p] inside a black border two pixels wide. *)
Definition bordered_square (p : pixel) : image :=
  mkImage 10 10
    (fun r c =>
       if ((2 <=? r) && (r <? 8) && (2 <=? c) && (c <? 8))%nat then p else black).

(** A black image one pixel high and two wide. *)
Definition wide_black : image := mkImage 1 2 (fun _ _ => black).

(** A 3x3 image, black but for the middle of its right column. *)
Definition right_dot : image :=
  of_rows 3 [[black; black; black];
             [black; black; red];
             [black; black; black]].

Definition default_reports : reports :=
  mkReports (0, NoAxis) (0, NoAxis) (0, NoAxis) (0, NoAxis).

(** Four reports with evidence of both axes. *)
Definition mixed_reports : reports :=
  mkReports (3, Horizontal) (2, Vertical) (4, Horizontal) (1, Vertical).

(** The image of [bottom_scan_wraps_around]: height 2, width 3. *)
Definition short_wide : image :=
  of_rows 3 [[black; red; red];
             [black; black; black]].

(** A 2x2 image whose top row and left column both turn red at offset 1. *)
Definition tie_image : image :=
  of_rows 2 [[black; red];
             [red; black]].

(** A 10x10 image, black but for its top-left pixel. *)
Definition corner_dot : image :=
  mkImage 10 10 (fun r c => if ((r =? 0) && (c =? 0))%nat then red else black).

(** The reports of [corner_dot] with tolerance 30. *)
Definition corner_dot_reports : reports :=
  mkReports (0, Horizontal) (9, Horizontal) (9, Vertical) (9, Vertical).

(** Reports that put [left] beyond [right] on a width of 10 with margin 5. *)
Definition inverted_reports : reports :=
  mkReports (8, Horizontal) (0, Horizontal) (0, NoAxis) (0, NoAxis).

(** A 10x10 image, black but for the last two pixels of its top row. *)
Definition late_content : image :=
  mkImage 10 10 (fun r c => if ((r =? 0) && (8 <=? c))%nat then red else black).

(** ** Vocabulary of the properties *)

(** The pixel read at an index pair is background, or is not. *)
Definition black_at (img : image) (tolerance : Z) (rc : Z * Z) : Prop :=
  exists p, getitem img (fst rc) (snd rc) = Return p
            /\ is_black_pixel p tolerance = true.

Definition nonblack_at (img : image) (tolerance : Z) (rc : Z * Z) : Prop :=
  exists p, getitem img (fst rc) (snd rc) = Return p
            /\ is_black_pixel p tolerance = false.

(** An index pair that needs neither wrap-around nor an exception. *)
Definition in_bounds (img : image) (rc : Z * Z) : Prop :=
  0 <= fst rc < Z.of_nat (height img) /\ 0 <= snd rc < Z.of_nat (width img).

(** Every stored pixel is background. *)
Definition all_background (img : image) (tolerance : Z) : Prop :=
  forall r c, (r < height img)%nat -> (c < width img)%nat ->
              is_black_pixel (px img r c) tolerance = true.

(** A corner's loop runs to its end without a hit. *)
Definition finds_nothing (img : image) (tolerance : Z) (c : corner) : Prop :=
  forall x, In x (range (width img)) -> scan_body img tolerance c x = Return None.

(** The value of [(index, axis)] on entry to each loop. *)
Definition entry_report (c : corner) (rs : reports) : report :=
  match c with
  | TopLeft => (0, NoAxis)
  | TopRight => top_left rs
  | BottomLeft => top_right rs
  | BottomRight => bottom_left rs
  end.

(** How far a report of axis [ax] pushes a boundary in: offset plus margin,
    and nothing for a report of another axis. *)
Definition inset (ax : axis) (r : report) (margin : Z) : Z :=
  if axis_eqb (snd r) ax then fst r + margin else 0.

Definition largest_inset (ax : axis) (r1 r2 : report) (margin : Z) : Z :=
  Z.max (inset ax r1 margin) (inset ax r2 margin).

(** Offsets are distances, never negative. *)
Definition offsets_nonneg (rs : reports) : Prop :=
  0 <= fst (top_left rs) /\ 0 <= fst (top_right rs)
  /\ 0 <= fst (bottom_left rs) /\ 0 <= fst (bottom_right rs).

(** Max-inward reconciliation: no boundary leaves the image, each sits at the
    largest inset its two corners give, and a side without evidence stays at
    the edge. *)
Definition max_inward (rs : reports) (W H margin : Z) : Prop :=
  let b := crop_box rs W H margin in
  (0 <= left b /\ right b <= W /\ 0 <= top b /\ bottom b <= H)
  /\ (left b = largest_inset Horizontal (top_left rs) (bottom_left rs) margin
      /\ right b = W - largest_inset Horizontal (top_right rs) (bottom_right rs) margin
      /\ top b = largest_inset Vertical (top_left rs) (top_right rs) margin
      /\ bottom b = H - largest_inset Vertical (bottom_left rs) (bottom_right rs) margin)
  /\ ((snd (top_left rs) <> Horizontal -> snd (bottom_left rs) <> Horizontal -> left b = 0)
      /\ (snd (top_right rs) <> Horizontal -> snd (bottom_right rs) <> Horizontal -> right b = W)
      /\ (snd (top_left rs) <> Vertical -> snd (top_right rs) <> Vertical -> top b = 0)
      /\ (snd (bottom_left rs) <> Vertical -> snd (bottom_right rs) <> Vertical -> bottom b = H)).

(** [ch in s] *)
Fixpoint has_char (ch : ascii) (s : string) : bool :=
  match s with
  | EmptyString => false
  | String c s' => Ascii.eqb c ch || has_char ch s'
  end.

(** The two calls that end [main]: scan with tolerance 30, then crop and
    save with margin 5.  An exception of either call ends the run. *)
Definition scan_crop_save {R : Type} (imwrite : string -> image -> result R)
  (img : image) (image_filename : string) : result R :=
  non_black <- find_non_black_pixels img 30 ;;
  crop_and_save (result R) imwrite img non_black image_filename 5.

(** ** The command *)

(** How a run of [main] ends: [sys.exit(code)], the end of the function
    after the call of [imwrite], or an exception nobody catches. *)
Inductive outcome (R : Type) : Type :=
| Exit (code : Z)
| Finished (r : R)
| Uncaught (e : exn).

Arguments Exit {R} code.
Arguments Finished {R} r.
Arguments Uncaught {R} e.

Section Main.

(** The file system and the codec are outside the program:
    [os.path.exists], [cv2.imread] (which gives [None] for a file it cannot
    decode, and a colour image otherwise) and [cv2.imwrite], which returns
    or raises. *)
Variable R : Type.
Variable path_exists : string -> bool.
Variable imread : string -> option image.
Variable imwrite : string -> image -> result R.

(** [main()] with [sys.argv = argv], the status lines apart. *)
Definition main (argv : list string) : outcome R :=
  if negb (Nat.eqb (List.length argv) 2) then Exit 1
  else
    let image_filename := nth 1 argv EmptyString in
    if negb (path_exists image_filename) then Exit 1
    else
      match imread image_filename with
      | None => Exit 1
      | Some image =>
          match find_non_black_pixels image 30 with
          | Raise e => Uncaught e
          | Return non_black =>
              match crop_and_save (result R) imwrite image non_black
                                  image_filename 5 with
              | Raise e => Uncaught e
              | Return r => Finished r
              end
          end
      end.

End Main.

(** ** Further vocabulary *)

(** The image read from right to left ([image[:, ::-1]]). *)
Definition mirror (img : image) : image :=
  mkImage (height img) (width img) (fun r c => px img r (width img - 1 - c)%nat).

Definition mirror_corner (c : corner) : corner :=
  match c with
  | TopLeft => TopRight
  | TopRight => TopLeft
  | BottomLeft => BottomRight
  | BottomRight => BottomLeft
  end.

(** The image read from bottom to top ([image[::-1]]). *)
Definition flip (img : image) : image :=
  mkImage (height img) (width img) (fun r c => px img (height img - 1 - r)%nat c).

Definition flip_corner (c : corner) : corner :=
  match c with
  | TopLeft => BottomLeft
  | TopRight => BottomRight
  | BottomLeft => TopLeft
  | BottomRight => TopRight
  end.

(** The pixels in the four corners of the image are bright. *)
Definition bright_corners (img : image) (tolerance : Z) : Prop :=
  is_black_pixel (px img 0 0) tolerance = false
  /\ is_black_pixel (px img 0 (width img - 1)) tolerance = false
  /\ is_black_pixel (px img (height img - 1) 0) tolerance = false
  /\ is_black_pixel (px img (height img - 1) (width img - 1)) tolerance = false.

(** A report a loop can end with on an image of width [w]: the initial
    [(0, '')], or an index of the loop with the axis of a hit. *)
Definition report_in_range (w : nat) (r : report) : Prop :=
  r = (0, NoAxis) \/ (0 <= fst r < Z.of_nat w /\ snd r <> NoAxis).

(** Pass [i] of a corner's loop falls through: both pixels are read and both
    are background. *)
Definition falls_through (img : image) (tolerance : Z) (c : corner) (i : nat) : Prop :=
  black_at img tolerance (horizontal_index c img (Z.of_nat i))
  /\ black_at img tolerance (vertical_index c img (Z.of_nat i)).

(** Pass [i] of a corner's loop breaks with report [r]. *)
Definition breaks_with (img : image) (tolerance : Z) (c : corner) (i : nat)
  (r : report) : Prop :=
  (r = (Z.of_nat i, Horizontal)
   /\ nonblack_at img tolerance (horizontal_index c img (Z.of_nat i)))
  \/ (r = (Z.of_nat i, Vertical)
      /\ black_at img tolerance (horizontal_index c img (Z.of_nat i))
      /\ nonblack_at img tolerance (vertical_index c img (Z.of_nat i))).

(** * Properties *)

(** ** Indexing *)

Lemma axis_index_in_range (i : Z) (n : nat) :
  0 <= i < Z.of_nat n -> axis_index i n = Return (Z.to_nat i).
Proof.
  intros [H0 H1]. unfold axis_index.
  apply Z.leb_le in H0. apply Z.ltb_lt in H1.
  now rewrite H0, H1.
Qed.

Lemma axis_index_above (i : Z) (n : nat) :
  Z.of_nat n <= i -> axis_index i n = Raise IndexError.
Proof.
  intros H. unfold axis_index.
  replace (i <? Z.of_nat n) with false by (symmetry; apply Z.ltb_ge; lia).
  replace (i <? 0) with false by (symmetry; apply Z.ltb_ge; lia).
  now rewrite !andb_false_r.
Qed.

Lemma getitem_in_bounds (img : image) (rc : Z * Z) :
  in_bounds img rc ->
  getitem img (fst rc) (snd rc) = Return (px img (Z.to_nat (fst rc)) (Z.to_nat (snd rc))).
Proof.
  intros [Hr Hc]. unfold getitem.
  rewrite (axis_index_in_range _ _ Hr). cbn.
  rewrite (axis_index_in_range _ _ Hc). reflexivity.
Qed.

Lemma getitem_row_above (img : image) (r c : Z) :
  Z.of_nat (height img) <= r -> getitem img r c = Raise IndexError.
Proof.
  intros H. unfold getitem. now rewrite (axis_index_above _ _ H).
Qed.

(** ** The loop *)

Lemma in_range (n : nat) (x : Z) :
  In x (range n) <-> exists i, (i < n)%nat /\ x = Z.of_nat i.
Proof.
  unfold range. rewrite in_map_iff. split.
  - intros (i & <- & Hi). apply in_seq in Hi. exists i. split; [lia | reflexivity].
  - intros (i & Hi & ->). exists i. split; [reflexivity | apply in_seq; lia].
Qed.

Lemma range_split (n i : nat) :
  (i < n)%nat ->
  range n = range i ++ Z.of_nat i :: map Z.of_nat (seq (S i) (n - S i)).
Proof.
  intros Hi. unfold range.
  replace n with (i + S (n - S i))%nat at 1 by lia.
  rewrite seq_app, map_app. reflexivity.
Qed.

Section ForBreak.

Variable body : Z -> result (option report).

Lemma for_break_falls_through (xs : list Z) (acc : report) :
  (forall x, In x xs -> body x = Return None) ->
  for_break body xs acc = Return acc.
Proof.
  induction xs as [| x xs IH]; intros Hall; cbn; [reflexivity |].
  rewrite (Hall x (or_introl eq_refl)). cbn.
  apply IH. intros y Hy. apply Hall. now right.
Qed.

Lemma for_break_app (pre post : list Z) (acc : report) :
  (forall x, In x pre -> body x = Return None) ->
  for_break body (pre ++ post) acc = for_break body post acc.
Proof.
  induction pre as [| x pre IH]; intros Hall; cbn; [reflexivity |].
  rewrite (Hall x (or_introl eq_refl)). cbn.
  apply IH. intros y Hy. apply Hall. now right.
Qed.

Lemma for_break_hit (pre post : list Z) (x : Z) (hit acc : report) :
  (forall y, In y pre -> body y = Return None) ->
  body x = Return (Some hit) ->
  for_break body (pre ++ x :: post) acc = Return hit.
Proof.
  intros Hpre Hx. rewrite for_break_app by assumption.
  cbn. now rewrite Hx.
Qed.

Lemma for_break_raise (pre post : list Z) (x : Z) (e : exn) (acc : report) :
  (forall y, In y pre -> body y = Return None) ->
  body x = Raise e ->
  for_break body (pre ++ x :: post) acc = Raise e.
Proof.
  intros Hpre Hx. rewrite for_break_app by assumption.
  cbn. now rewrite Hx.
Qed.

End ForBreak.

(** A loop that never breaks leaves [(index, axis)] as it found it. *)
Lemma scan_corner_keeps_acc (img : image) (tolerance : Z) (c : corner) (acc : report) :
  finds_nothing img tolerance c ->
  scan_corner img tolerance c acc = Return acc.
Proof.
  intros H. unfold scan_corner. now apply for_break_falls_through.
Qed.

(** ** Scans that stay inside the image *)

(** Below [min(H, W)] both tests of every corner read inside the image. *)
Lemma indices_in_bounds (img : image) (c : corner) (i : nat) :
  (i < height img)%nat -> (i < width img)%nat ->
  in_bounds img (horizontal_index c img (Z.of_nat i))
  /\ in_bounds img (vertical_index c img (Z.of_nat i)).
Proof.
  intros Hh Hw. unfold in_bounds. destruct c; cbn; lia.
Qed.

Lemma scan_body_background (img : image) (tolerance : Z) (c : corner) (i : nat) :
  (i < height img)%nat -> (i < width img)%nat ->
  all_background img tolerance ->
  scan_body img tolerance c (Z.of_nat i) = Return None.
Proof.
  intros Hh Hw Hbg.
  destruct (indices_in_bounds img c i Hh Hw) as [Bh Bv].
  unfold scan_body.
  rewrite (getitem_in_bounds _ _ Bh). cbn [bind].
  rewrite Hbg by (destruct Bh; lia). cbn [negb].
  rewrite (getitem_in_bounds _ _ Bv). cbn [bind].
  rewrite Hbg by (destruct Bv; lia). reflexivity.
Qed.

(** On an image at least as high as wide, a background image gives the four
    default reports. *)
Lemma all_background_tall (img : image) (tolerance : Z) :
  (width img <= height img)%nat ->
  all_background img tolerance ->
  find_non_black_pixels img tolerance = Return default_reports.
Proof.
  intros Hwh Hbg.
  assert (Hnone : forall c, finds_nothing img tolerance c).
  { intros c x Hx. apply in_range in Hx as (i & Hi & ->).
    apply scan_body_background; [lia | assumption | assumption]. }
  unfold find_non_black_pixels.
  repeat (rewrite scan_corner_keeps_acc by apply Hnone; cbn [bind]).
  reflexivity.
Qed.

(** A pass whose two tests read inside the image does not raise. *)
Lemma scan_body_returns (img : image) (tolerance : Z) (c : corner) (i : nat) :
  (i < height img)%nat -> (i < width img)%nat ->
  exists r, scan_body img tolerance c (Z.of_nat i) = Return r.
Proof.
  intros Hh Hw.
  destruct (indices_in_bounds img c i Hh Hw) as [Bh Bv].
  unfold scan_body.
  rewrite (getitem_in_bounds _ _ Bh). cbn [bind].
  destruct (is_black_pixel _ tolerance); cbn [negb]; [| eauto].
  rewrite (getitem_in_bounds _ _ Bv). cbn [bind].
  destruct (is_black_pixel _ tolerance); cbn [negb]; eauto.
Qed.

Lemma for_break_returns (body : Z -> result (option report)) (xs : list Z)
  (acc : report) :
  (forall x, In x xs -> exists r, body x = Return r) ->
  exists hit, for_break body xs acc = Return hit.
Proof.
  induction xs as [| x xs IH]; intros Hall; cbn; [eauto |].
  destruct (Hall x (or_introl eq_refl)) as [[hit |] ->]; cbn; [eauto |].
  apply IH. intros y Hy. apply Hall. now right.
Qed.

(** On an image at least as high as wide the scanner returns its four
    reports. *)
Lemma tall_scan_returns (img : image) (tolerance : Z) :
  (width img <= height img)%nat ->
  exists rs, find_non_black_pixels img tolerance = Return rs.
Proof.
  intros Hwh.
  assert (Hc : forall c acc, exists r, scan_corner img tolerance c acc = Return r).
  { intros c acc. apply for_break_returns.
    intros x Hx. apply in_range in Hx as (i & Hi & ->).
    apply scan_body_returns; lia. }
  unfold find_non_black_pixels.
  destruct (Hc TopLeft (0, NoAxis)) as [tl ->]. cbn [bind].
  destruct (Hc TopRight tl) as [tr ->]. cbn [bind].
  destruct (Hc BottomLeft tr) as [bl ->]. cbn [bind].
  destruct (Hc BottomRight bl) as [br ->]. cbn [bind].
  eauto.
Qed.

(** On a background image wider than high the first loop runs past the last
    row. *)
Lemma wide_background_raises (img : image) (tolerance : Z) :
  (height img < width img)%nat ->
  all_background img tolerance ->
  find_non_black_pixels img tolerance = Raise IndexError.
Proof.
  intros Hhw Hbg.
  assert (Htl : scan_corner img tolerance TopLeft (0, NoAxis) = Raise IndexError).
  { unfold scan_corner. rewrite (range_split _ _ Hhw).
    apply for_break_raise.
    - intros y Hy. apply in_range in Hy as (j & Hj & ->).
      apply scan_body_background; [assumption | lia | assumption].
    - unfold scan_body. cbn [horizontal_index vertical_index fst snd].
      destruct (Nat.eq_dec (height img) 0) as [H0 | H0].
      + rewrite getitem_row_above by lia. reflexivity.
      + assert (Bh : in_bounds img (0, Z.of_nat (height img)))
          by (unfold in_bounds; cbn; lia).
        pose proof (getitem_in_bounds _ _ Bh) as G. cbn [fst snd] in G.
        rewrite G. cbn [bind].
        rewrite Hbg by lia. cbn [negb].
        rewrite getitem_row_above by lia. reflexivity. }
  unfold find_non_black_pixels. now rewrite Htl.
Qed.

(** With four default reports nothing is cropped, whatever the margin. *)
Lemma crop_box_default (W H margin : Z) :
  crop_box default_reports W H margin = mkBox 0 W 0 H.
Proof. reflexivity. Qed.

(** What a run that returns says about each of its four loops. *)
Lemma find_non_black_pixels_inv (img : image) (tolerance : Z) (rs : reports) :
  find_non_black_pixels img tolerance = Return rs ->
  scan_corner img tolerance TopLeft (0, NoAxis) = Return (top_left rs)
  /\ scan_corner img tolerance TopRight (top_left rs) = Return (top_right rs)
  /\ scan_corner img tolerance BottomLeft (top_right rs) = Return (bottom_left rs)
  /\ scan_corner img tolerance BottomRight (bottom_left rs) = Return (bottom_right rs).
Proof.
  unfold find_non_black_pixels. intros Hrun.
  destruct (scan_corner img tolerance TopLeft (0, NoAxis)) as [tl |] eqn:Etl;
    cbn in Hrun; [| discriminate].
  destruct (scan_corner img tolerance TopRight tl) as [tr |] eqn:Etr;
    cbn in Hrun; [| discriminate].
  destruct (scan_corner img tolerance BottomLeft tr) as [bl |] eqn:Ebl;
    cbn in Hrun; [| discriminate].
  destruct (scan_corner img tolerance BottomRight bl) as [br |] eqn:Ebr;
    cbn in Hrun; [| discriminate].
  injection Hrun as <-. cbn. auto.
Qed.

Lemma find_non_black_pixels_corner (img : image) (tolerance : Z) (rs : reports)
  (c : corner) :
  find_non_black_pixels img tolerance = Return rs ->
  scan_corner img tolerance c (entry_report c rs) = Return (report_of c rs).
Proof.
  intros Hrun.
  destruct (find_non_black_pixels_inv _ _ _ Hrun) as (Htl & Htr & Hbl & Hbr).
  destruct c; assumption.
Qed.

(** A corner that finds nothing reports what the loop before it left in
    [(index, axis)]. *)
Lemma report_without_hit (img : image) (tolerance : Z) (c : corner) (rs : reports) :
  find_non_black_pixels img tolerance = Return rs ->
  finds_nothing img tolerance c ->
  report_of c rs = entry_report c rs.
Proof.
  intros Hrun Hnone.
  pose proof (find_non_black_pixels_corner _ _ _ c Hrun) as Hc.
  rewrite scan_corner_keeps_acc in Hc by assumption.
  now injection Hc.
Qed.

(** ** The loop bound *)

(** C1, at an image of height 1 and width 2 with tolerance 30: the loop of
    the top-left corner reaches [x = 1], beyond [min(H, W) - 1 = 0], its
    second test reads row 1 of a one-row image, and the scanner ends in
    [IndexError]. *)
Theorem scan_leaves_image_when_wide :
  (1 <= height wide_black)%nat /\ (1 <= width wide_black)%nat
  /\ In 1 (range (width wide_black))
  /\ Z.of_nat (Nat.min (height wide_black) (width wide_black)) - 1 < 1
  /\ vertical_index TopLeft wide_black 1 = (1, 0)
  /\ ~ in_bounds wide_black (1, 0)
  /\ scan_body wide_black 30 TopLeft 1 = Raise IndexError
  /\ find_non_black_pixels wide_black 30 = Raise IndexError.
Proof.
  split; [cbn; lia |]. split; [cbn; lia |].
  split; [cbn; auto |]. split; [cbn; lia |].
  split; [reflexivity |].
  split; [unfold in_bounds; cbn; lia |].
  split; reflexivity.
Qed.

(** The bottom corners read with a negative row index once [x] passes the
    height: on this image of height 2 and width 3 the bottom-left loop
    reads row [-1], which NumPy takes for the last row, and the scanner
    returns as if nothing had happened. *)
Example bottom_scan_wraps_around :
  vertical_index BottomLeft short_wide 2 = (-1, 0)
  /\ getitem short_wide (-1) 0 = Return (px short_wide 1 0)
  /\ scan_body short_wide 30 BottomLeft 2 = Return None
  /\ find_non_black_pixels short_wide 30
     = Return (mkReports (1, Horizontal) (0, Horizontal) (0, Horizontal) (1, Vertical)).
Proof. repeat split. Qed.

(** ** Background images *)

(** C5, at the black image of height 1 and width 2 with tolerance 30: every
    pixel is background, yet the scanner gives no reports at all, it ends in
    [IndexError]. *)
Theorem all_background_wide_raises :
  all_background wide_black 30
  /\ find_non_black_pixels wide_black 30 = Raise IndexError.
Proof.
  split; [intros r c _ _ |]; reflexivity.
Qed.

(** ** Stale reports *)

(** C3, at the 3x3 image whose only bright pixel is the middle of the right
    column, tolerance 30: the bottom-left loop finds nothing, and its report
    is the [(1, vertical)] left behind by the top-right loop, not
    [(0, '')]. *)
Theorem stale_report_bottom_left :
  finds_nothing right_dot 30 BottomLeft
  /\ find_non_black_pixels right_dot 30
     = Return (mkReports (0, NoAxis) (1, Vertical) (1, Vertical) (1, Vertical))
  /\ (1, Vertical) <> (0, NoAxis).
Proof.
  split; [| split; [reflexivity | discriminate]].
  intros x Hx. cbn in Hx.
  destruct Hx as [<- | [<- | [<- | []]]]; reflexivity.
Qed.

(** ** Degenerate images *)

(** C7 as stated fails: an image of height 5 and width 0 is scanned without
    any failure. *)
Lemma zero_width_is_not_rejected :
  ~ (forall img tolerance,
        (height img = 0 \/ width img = 0)%nat ->
        exists e, find_non_black_pixels img tolerance = Raise e).
Proof.
  intros H.
  destruct (H (mkImage 5 0 (fun _ _ => black)) 30 (or_intror eq_refl)) as [e He].
  discriminate He.
Qed.

(** C7, amended: an image of width 0 gives the four default reports; an
    image of height 0 and width at least 1 ends in [IndexError] at its first
    pixel access. *)
Theorem degenerate_image_scan (img : image) (tolerance : Z) :
  (width img = 0%nat ->
   find_non_black_pixels img tolerance = Return default_reports)
  /\ (height img = 0%nat -> (1 <= width img)%nat ->
      find_non_black_pixels img tolerance = Raise IndexError).
Proof.
  destruct img as [h w f]. cbn [height width]. split.
  - intros ->. reflexivity.
  - intros -> Hw. destruct w as [| w]; [lia |]. reflexivity.
Qed.

Lemma degenerate_image_scan_witness :
  find_non_black_pixels (mkImage 5 0 (fun _ _ => black)) 30 = Return default_reports
  /\ find_non_black_pixels (mkImage 0 5 (fun _ _ => black)) 30 = Raise IndexError.
Proof.
  split.
  - apply (degenerate_image_scan (mkImage 5 0 (fun _ _ => black)) 30). reflexivity.
  - apply (degenerate_image_scan (mkImage 0 5 (fun _ _ => black)) 30).
    + reflexivity.
    + cbn. lia.
Defined.

(** ** The bordered square *)

(** C2 as stated fails: the outermost rows and columns of the bordered
    square are black, so no corner reports [(2, horizontal)] and the box is
    not the square. *)
Lemma bordered_square_not_found :
  Forall (fun ch => 30 < ch) red
  /\ find_non_black_pixels (bordered_square red) 30
     <> Return (mkReports (2, Horizontal) (2, Horizontal) (2, Horizontal) (2, Horizontal))
  /\ (forall rs, find_non_black_pixels (bordered_square red) 30 = Return rs ->
                 crop_box rs 10 10 0 <> mkBox 2 8 2 8).
Proof.
  split; [| split].
  - unfold red. repeat constructor.
  - discriminate.
  - intros rs Hrs. vm_compute in Hrs. injection Hrs as <-. discriminate.
Qed.

(** C2, amended: whatever fills the 6x6 square, all four corners of the
    bordered image report [(0, '')] and the box with margin 0 is the whole
    image. *)
Theorem bordered_square_uncropped (p : pixel) :
  find_non_black_pixels (bordered_square p) 30 = Return default_reports
  /\ crop_box default_reports 10 10 0 = mkBox 0 10 0 10.
Proof.
  split; reflexivity.
Qed.

(** ** Order of the two tests *)

(** The first test of a pass decides as soon as it meets a bright pixel. *)
Lemma first_horizontal_hit (img : image) (tolerance : Z) (c : corner) (i : nat)
  (acc : report) :
  (i < width img)%nat ->
  nonblack_at img tolerance (horizontal_index c img (Z.of_nat i)) ->
  (forall j, (j < i)%nat ->
     black_at img tolerance (horizontal_index c img (Z.of_nat j))
     /\ black_at img tolerance (vertical_index c img (Z.of_nat j))) ->
  scan_corner img tolerance c acc = Return (Z.of_nat i, Horizontal).
Proof.
  intros Hi (p & Hp & Bp) Hprev.
  unfold scan_corner. rewrite (range_split _ _ Hi).
  apply for_break_hit.
  - intros y Hy. apply in_range in Hy as (j & Hj & ->).
    destruct (Hprev j Hj) as [(q & Hq & Bq) (q' & Hq' & Bq')].
    unfold scan_body.
    rewrite Hq. cbn [bind]. rewrite Bq. cbn [negb].
    rewrite Hq'. cbn [bind]. rewrite Bq'. reflexivity.
  - unfold scan_body. rewrite Hp. cbn [bind]. rewrite Bp. reflexivity.
Qed.

(** C6: when both tests of a corner meet a bright pixel at the same index
    [i] and no test met one at a smaller index, the loop of that corner ends
    with [(i, horizontal)], whatever [(index, axis)] held before, and this
    is the report of the corner in every run that returns. *)
Theorem tie_break_horizontal (img : image) (tolerance : Z) (c : corner) (i : nat) :
  (i < width img)%nat ->
  nonblack_at img tolerance (horizontal_index c img (Z.of_nat i)) ->
  nonblack_at img tolerance (vertical_index c img (Z.of_nat i)) ->
  (forall j, (j < i)%nat ->
     black_at img tolerance (horizontal_index c img (Z.of_nat j))
     /\ black_at img tolerance (vertical_index c img (Z.of_nat j))) ->
  (forall acc, scan_corner img tolerance c acc = Return (Z.of_nat i, Horizontal))
  /\ (forall rs, find_non_black_pixels img tolerance = Return rs ->
                  report_of c rs = (Z.of_nat i, Horizontal)).
Proof.
  intros Hi Hh _ Hprev.
  assert (Hscan : forall acc,
             scan_corner img tolerance c acc = Return (Z.of_nat i, Horizontal))
    by (intros acc; now apply first_horizontal_hit).
  split; [exact Hscan |].
  intros rs Hrun.
  pose proof (find_non_black_pixels_corner _ _ _ c Hrun) as Hc.
  rewrite Hscan in Hc. now injection Hc.
Qed.

Lemma tie_break_horizontal_witness :
  (forall acc, scan_corner tie_image 30 TopLeft acc = Return (1, Horizontal))
  /\ (forall rs, find_non_black_pixels tie_image 30 = Return rs ->
                  report_of TopLeft rs = (1, Horizontal)).
Proof.
  apply (tie_break_horizontal tie_image 30 TopLeft 1).
  - cbn. lia.
  - exists red. split; reflexivity.
  - exists red. split; reflexivity.
  - intros j Hj. assert (j = 0%nat) as -> by lia.
    split; exists black; split; reflexivity.
Defined.

(** ** Boundaries *)

(** C4 as stated fails for a negative margin: the left boundary leaves the
    image. *)
Lemma negative_margin_moves_outward :
  left (crop_box (mkReports (0, Horizontal) (0, NoAxis) (0, NoAxis) (0, NoAxis))
                 10 10 (-1)) = -1
  /\ ~ max_inward (mkReports (0, Horizontal) (0, NoAxis) (0, NoAxis) (0, NoAxis))
                  10 10 (-1).
Proof.
  split; [reflexivity |].
  unfold max_inward. cbn. lia.
Qed.

(** C4, amended: with offsets and margin that are not negative, every
    boundary stays within the image edge it started from, sits at the
    largest inset given by the evidence of its two corners, and stays at the
    edge when neither corner has evidence of its axis. *)
Theorem crop_box_max_inward (rs : reports) (W H margin : Z) :
  offsets_nonneg rs -> 0 <= margin ->
  max_inward rs W H margin.
Proof.
  destruct rs as [[o1 a1] [o2 a2] [o3 a3] [o4 a4]].
  unfold offsets_nonneg, max_inward, crop_box, largest_inset, inset.
  cbn [top_left top_right bottom_left bottom_right fst snd left right top bottom].
  intros (H1 & H2 & H3 & H4) Hm.
  destruct a1, a2, a3, a4; cbn [axis_eqb];
    repeat split; try lia; intros; congruence.
Qed.

Lemma crop_box_max_inward_witness :
  max_inward mixed_reports 10 10 5.
Proof.
  apply (crop_box_max_inward mixed_reports 10 10 5).
  - unfold offsets_nonneg. cbn. lia.
  - lia.
Defined.

(** C8: a larger margin never moves [left] or [top] back out and never
    moves [right] or [bottom] back out. *)
Theorem crop_box_margin_monotone (rs : reports) (W H m1 m2 : Z) :
  m1 <= m2 ->
  left (crop_box rs W H m1) <= left (crop_box rs W H m2)
  /\ top (crop_box rs W H m1) <= top (crop_box rs W H m2)
  /\ right (crop_box rs W H m2) <= right (crop_box rs W H m1)
  /\ bottom (crop_box rs W H m2) <= bottom (crop_box rs W H m1).
Proof.
  destruct rs as [[o1 a1] [o2 a2] [o3 a3] [o4 a4]].
  unfold crop_box.
  cbn [top_left top_right bottom_left bottom_right fst snd left right top bottom].
  intros Hm.
  destruct a1, a2, a3, a4; cbn [axis_eqb]; lia.
Qed.

Lemma crop_box_margin_monotone_witness :
  left (crop_box mixed_reports 10 10 0) <= left (crop_box mixed_reports 10 10 5)
  /\ top (crop_box mixed_reports 10 10 0) <= top (crop_box mixed_reports 10 10 5)
  /\ right (crop_box mixed_reports 10 10 5) <= right (crop_box mixed_reports 10 10 0)
  /\ bottom (crop_box mixed_reports 10 10 5) <= bottom (crop_box mixed_reports 10 10 0).
Proof.
  apply (crop_box_margin_monotone mixed_reports 10 10 0 5). lia.
Defined.

(** ** Output file name *)

Section Strings.

Local Open Scope string_scope.

Lemma str_take_drop (n : nat) (s : string) :
  str_take n s ++ str_drop n s = s.
Proof.
  revert s. induction n as [| n IH]; intros [| c s]; cbn; try reflexivity.
  now rewrite IH.
Qed.

Lemma append_empty_r (s : string) : s ++ "" = s.
Proof.
  induction s as [| c s IH]; cbn; [reflexivity | now rewrite IH].
Qed.

(** [rfind_from] returns [last] when the character is absent, and
    otherwise the index of an occurrence after which there is none. *)
Lemma rfind_from_spec (ch : ascii) (s : string) (i last : Z) :
  (rfind_from ch s i last = last /\ has_char ch s = false)
  \/ (i <= rfind_from ch s i last < i + Z.of_nat (String.length s)
      /\ exists rest,
           str_drop (Z.to_nat (rfind_from ch s i last - i)) s = String ch rest
           /\ has_char ch rest = false).
Proof.
  revert i last. induction s as [| c s IH]; intros i last; cbn [rfind_from].
  - left. split; reflexivity.
  - destruct (IH (i + 1) (if Ascii.eqb c ch then i else last))
      as [[Hd Hno] | [Hrange (rest & Hrest & Hno)]].
    + rewrite Hd. destruct (Ascii.eqb c ch) eqn:Ec.
      * right. apply Ascii.eqb_eq in Ec. subst c.
        cbn [String.length]. split; [lia |].
        exists s. rewrite Z.sub_diag. split; [reflexivity | assumption].
      * left. cbn [has_char]. rewrite Ec, Hno. split; reflexivity.
    + right. cbn [String.length]. split; [lia |].
      exists rest. split; [| assumption].
      set (d := rfind_from ch s (i + 1) (if Ascii.eqb c ch then i else last)) in *.
      replace (Z.to_nat (d - i)) with (S (Z.to_nat (d - (i + 1)))) by lia.
      exact Hrest.
Qed.

Lemma rfind_lower (ch : ascii) (s : string) : -1 <= rfind ch s.
Proof.
  unfold rfind. destruct (rfind_from_spec ch s 0 (-1)) as [[-> _] | [H _]]; lia.
Qed.

Lemma str_upto_0 (s : string) : str_upto s 0 = "".
Proof.
  unfold str_upto, slice_bound. cbn [Z.ltb Z.compare].
  replace (Z.to_nat (Z.min 0 (Z.of_nat (String.length s)))) with 0%nat by lia.
  reflexivity.
Qed.

Lemma splitext_concat (p : string) :
  fst (splitext p) ++ snd (splitext p) = p.
Proof.
  unfold splitext.
  destruct ((rfind "." p >? rfind "/" p) && _); cbn [fst snd].
  - apply str_take_drop.
  - rewrite str_upto_0. apply append_empty_r.
Qed.

(** An extension is empty, or starts at the last dot of the path. *)
Lemma splitext_ext (p : string) :
  snd (splitext p) = ""
  \/ exists rest, snd (splitext p) = String "." rest /\ has_char "." rest = false.
Proof.
  unfold splitext.
  destruct (rfind "." p >? rfind "/" p) eqn:Egt; cbn [andb fst snd];
    [| left; apply str_upto_0].
  destruct (skip_leading_dots _ _ _); cbn [fst snd]; [| left; apply str_upto_0].
  right. apply Z.gtb_lt in Egt.
  pose proof (rfind_lower "/" p) as Hsep.
  unfold str_from, slice_bound.
  unfold rfind in *.
  destruct (rfind_from_spec "." p 0 (-1)) as [[Hd _] | [Hrange (rest & Hrest & Hno)]];
    [lia |].
  exists rest. split; [| assumption].
  replace (rfind_from "." p 0 (-1) <? 0)%Z with false
    by (symmetry; apply Z.ltb_ge; lia).
  rewrite Z.min_l by lia.
  rewrite Z.sub_0_r in Hrest. exact Hrest.
Qed.

(** C9: ["scan.png"] gives ["scan_cropped.png"], ["scan"] gives
    ["scan_cropped"], and for every path the name is the base, then
    [_cropped], then the extension, where base and extension make up the
    path and the extension, when there is one, starts at the last dot. *)
Theorem cropped_filename_spec :
  cropped_filename "scan.png" = "scan_cropped.png"
  /\ cropped_filename "scan" = "scan_cropped"
  /\ forall p, exists base ext,
       splitext p = (base, ext)
       /\ base ++ ext = p
       /\ cropped_filename p = base ++ "_cropped" ++ ext
       /\ (ext = "" \/ exists rest, ext = String "." rest
                                    /\ has_char "." rest = false).
Proof.
  split; [reflexivity |]. split; [reflexivity |].
  intros p.
  pose proof (splitext_concat p) as Hcat.
  pose proof (splitext_ext p) as Hext.
  unfold cropped_filename.
  destruct (splitext p) as [base ext]. cbn [fst snd] in *.
  exists base, ext. repeat split; assumption.
Qed.

End Strings.

(** ** No validation of the box *)

(** C10: with the reports of [corner_dot], a width and height of 10 and
    margin 5, the box is [left = 5, right = -4, top = 0, bottom = -4]: its
    left is beyond its right, and its right and bottom are negative.
    [crop_and_save] checks nothing: on every 10x10 image it slices with
    that box, the negative bounds being counted from the far edge, and the
    encoder writes the 6x1 image that comes out, under the cropped name;
    no exception is raised.  (With [inverted_reports] the box is
    [13, 5, 0, 10], nothing is checked either, the slice has no pixel, and
    the run ends in the [cv2.error] of the encoder.) *)
Theorem crop_box_not_validated (R : Type) (encodable : string -> image -> bool)
  (write : string -> image -> R) (img : image) (name : string) :
  height img = 10%nat -> width img = 10%nat ->
  encodable (cropped_filename name)
            (mkImage 6 1 (fun r c => px img r (5 + c)%nat)) = true ->
  find_non_black_pixels corner_dot 30 = Return corner_dot_reports
  /\ (crop_box corner_dot_reports 10 10 5 = mkBox 5 (-4) 0 (-4)
      /\ left (crop_box corner_dot_reports 10 10 5)
         >= right (crop_box corner_dot_reports 10 10 5)
      /\ right (crop_box corner_dot_reports 10 10 5) < 0
      /\ bottom (crop_box corner_dot_reports 10 10 5) < 0)
  /\ crop_and_save (result R) (cv2_imwrite R encodable write)
                   img corner_dot_reports name 5
     = Return (write (cropped_filename name)
                     (mkImage 6 1 (fun r c => px img r (5 + c)%nat)))
  /\ (find_non_black_pixels img 30 = Return corner_dot_reports ->
      scan_crop_save (cv2_imwrite R encodable write) img name
      = Return (write (cropped_filename name)
                      (mkImage 6 1 (fun r c => px img r (5 + c)%nat))))
  /\ (crop_box inverted_reports 10 10 5 = mkBox 13 5 0 10
      /\ crop_and_save (result R) (cv2_imwrite R encodable write)
                       img inverted_reports name 5
         = Raise Cv2Error).
Proof.
  intros Hh Hw Henc.
  destruct img as [h w f]. cbn [height width px] in *. subst h w.
  assert (Hsave :
    crop_and_save (result R) (cv2_imwrite R encodable write)
                  (mkImage 10 10 f) corner_dot_reports name 5
    = Return (write (cropped_filename name)
                    (mkImage 6 1 (fun r c => f r (5 + c)%nat)))).
  { unfold crop_and_save.
    change (image_slice _ _ _ _ _)
      with (mkImage 6 1 (fun r c => f r (5 + c)%nat)).
    unfold cv2_imwrite. cbn [height width Nat.eqb orb].
    now rewrite Henc. }
  split; [reflexivity |].
  split; [repeat split; cbn; lia |].
  split; [exact Hsave |].
  split.
  - intros Hscan. unfold scan_crop_save. rewrite Hscan. exact Hsave.
  - split; [reflexivity |].
    unfold crop_and_save.
    change (image_slice _ _ _ _ _)
      with (mkImage 10 0 (fun r c => f r (10 + c)%nat)).
    reflexivity.
Qed.

Lemma crop_box_not_validated_witness :
  find_non_black_pixels corner_dot 30 = Return corner_dot_reports
  /\ (crop_box corner_dot_reports 10 10 5 = mkBox 5 (-4) 0 (-4)
      /\ left (crop_box corner_dot_reports 10 10 5)
         >= right (crop_box corner_dot_reports 10 10 5)
      /\ right (crop_box corner_dot_reports 10 10 5) < 0
      /\ bottom (crop_box corner_dot_reports 10 10 5) < 0)
  /\ crop_and_save (result (string * image))
                   (cv2_imwrite (string * image) (fun _ _ => true) pair)
                   corner_dot corner_dot_reports "scan.png" 5
     = Return (cropped_filename "scan.png",
               mkImage 6 1 (fun r c => px corner_dot r (5 + c)%nat))
  /\ (find_non_black_pixels corner_dot 30 = Return corner_dot_reports ->
      scan_crop_save (cv2_imwrite (string * image) (fun _ _ => true) pair)
                     corner_dot "scan.png"
      = Return (cropped_filename "scan.png",
                mkImage 6 1 (fun r c => px corner_dot r (5 + c)%nat)))
  /\ (crop_box inverted_reports 10 10 5 = mkBox 13 5 0 10
      /\ crop_and_save (result (string * image))
                       (cv2_imwrite (string * image) (fun _ _ => true) pair)
                       corner_dot inverted_reports "scan.png" 5
         = Raise Cv2Error).
Proof.
  apply (crop_box_not_validated (string * image) (fun _ _ => true) pair
           corner_dot "scan.png"); reflexivity.
Defined.

(** * Further properties of the scanner *)

(** ** What one pass does *)

Lemma scan_body_falls_through (img : image) (tolerance : Z) (c : corner) (i : nat) :
  scan_body img tolerance c (Z.of_nat i) = Return None
  <-> falls_through img tolerance c i.
Proof.
  unfold scan_body, falls_through, black_at. split.
  - destruct (getitem img _ _) as [p |] eqn:Hp; cbn [bind]; [| discriminate].
    destruct (is_black_pixel p tolerance) eqn:Bp; cbn [negb]; [| discriminate].
    destruct (getitem img (fst (vertical_index _ _ _)) _) as [q |] eqn:Hq;
      cbn [bind]; [| discriminate].
    destruct (is_black_pixel q tolerance) eqn:Bq; cbn [negb]; [| discriminate].
    intros _. split; eauto.
  - intros [(p & Hp & Bp) (q & Hq & Bq)].
    rewrite Hp. cbn [bind]. rewrite Bp. cbn [negb].
    rewrite Hq. cbn [bind]. rewrite Bq. reflexivity.
Qed.

Lemma scan_body_breaks (img : image) (tolerance : Z) (c : corner) (i : nat)
  (r : report) :
  scan_body img tolerance c (Z.of_nat i) = Return (Some r)
  <-> breaks_with img tolerance c i r.
Proof.
  unfold scan_body, breaks_with, black_at, nonblack_at. split.
  - destruct (getitem img _ _) as [p |] eqn:Hp; cbn [bind]; [| discriminate].
    destruct (is_black_pixel p tolerance) eqn:Bp; cbn [negb].
    + destruct (getitem img (fst (vertical_index _ _ _)) _) as [q |] eqn:Hq;
        cbn [bind]; [| discriminate].
      destruct (is_black_pixel q tolerance) eqn:Bq; cbn [negb]; [discriminate |].
      intros [= <-]. right. split; [reflexivity |]. split; eauto.
    + intros [= <-]. left. split; [reflexivity | eauto].
  - intros [[-> (p & Hp & Bp)] | [-> [(p & Hp & Bp) (q & Hq & Bq)]]].
    + rewrite Hp. cbn [bind]. rewrite Bp. reflexivity.
    + rewrite Hp. cbn [bind]. rewrite Bp. cbn [negb].
      rewrite Hq. cbn [bind]. rewrite Bq. reflexivity.
Qed.

(** ** What a whole loop does *)

Lemma for_break_seq_inv (body : Z -> result (option report)) (n a : nat)
  (acc r : report) :
  for_break body (map Z.of_nat (seq a n)) acc = Return r ->
  (r = acc
   /\ forall j, (a <= j < a + n)%nat -> body (Z.of_nat j) = Return None)
  \/ (exists i, (a <= i < a + n)%nat
                /\ body (Z.of_nat i) = Return (Some r)
                /\ forall j, (a <= j < i)%nat -> body (Z.of_nat j) = Return None).
Proof.
  revert a. induction n as [| n IH]; intros a; cbn [seq map for_break].
  - intros [= <-]. left. split; [reflexivity | intros j Hj; lia].
  - destruct (body (Z.of_nat a)) as [[hit |] |] eqn:Ea; cbn [bind].
    + intros [= <-]. right. exists a. split; [lia |].
      split; [assumption | intros j Hj; lia].
    + intros Hrest. destruct (IH (S a) Hrest) as [[-> Hall] | (i & Hi & Hhit & Hall)].
      * left. split; [reflexivity |]. intros j Hj.
        destruct (Nat.eq_dec j a) as [-> | Hne]; [assumption | apply Hall; lia].
      * right. exists i. split; [lia |]. split; [assumption |]. intros j Hj.
        destruct (Nat.eq_dec j a) as [-> | Hne]; [assumption | apply Hall; lia].
    + discriminate.
Qed.

(** A loop that returns either kept [(index, axis)], every pass having
    fallen through, or broke at the first pass that did not fall through. *)
Lemma scan_corner_inv (img : image) (tolerance : Z) (c : corner) (acc r : report) :
  scan_corner img tolerance c acc = Return r ->
  (r = acc /\ finds_nothing img tolerance c)
  \/ (exists i, (i < width img)%nat
                /\ breaks_with img tolerance c i r
                /\ forall j, (j < i)%nat -> falls_through img tolerance c j).
Proof.
  unfold scan_corner, range. intros Hrun.
  destruct (for_break_seq_inv _ _ _ _ _ Hrun) as [[-> Hall] | (i & Hi & Hhit & Hall)].
  - left. split; [reflexivity |].
    intros x Hx. apply in_range in Hx as (j & Hj & ->). apply Hall. lia.
  - right. exists i. split; [lia |]. split.
    + now apply scan_body_breaks.
    + intros j Hj. apply scan_body_falls_through. apply Hall. lia.
Qed.

Lemma breaks_with_in_range (img : image) (tolerance : Z) (c : corner) (i : nat)
  (r : report) :
  (i < width img)%nat -> breaks_with img tolerance c i r ->
  0 <= fst r < Z.of_nat (width img) /\ snd r <> NoAxis.
Proof.
  intros Hi [[-> _] | [-> _]]; cbn [fst snd]; split; (lia || discriminate).
Qed.

Lemma scan_corner_in_range (img : image) (tolerance : Z) (c : corner)
  (acc r : report) :
  report_in_range (width img) acc ->
  scan_corner img tolerance c acc = Return r ->
  report_in_range (width img) r.
Proof.
  intros Hacc Hrun.
  destruct (scan_corner_inv _ _ _ _ _ Hrun) as [[-> _] | (i & Hi & Hhit & _)];
    [assumption |].
  right. eapply breaks_with_in_range; eassumption.
Qed.

Lemma reports_in_range (img : image) (tolerance : Z) (rs : reports) (c : corner) :
  find_non_black_pixels img tolerance = Return rs ->
  report_in_range (width img) (report_of c rs).
Proof.
  intros Hrun.
  destruct (find_non_black_pixels_inv _ _ _ Hrun) as (Htl & Htr & Hbl & Hbr).
  assert (H0 : report_in_range (width img) (0, NoAxis)) by (left; reflexivity).
  pose proof (scan_corner_in_range _ _ _ _ _ H0 Htl) as H1.
  pose proof (scan_corner_in_range _ _ _ _ _ H1 Htr) as H2.
  pose proof (scan_corner_in_range _ _ _ _ _ H2 Hbl) as H3.
  pose proof (scan_corner_in_range _ _ _ _ _ H3 Hbr) as H4.
  destruct c; assumption.
Qed.

(** A loop breaks at the first pass that does not fall through, with the
    report of that pass. *)
Lemma scan_corner_breaks (img : image) (tolerance : Z) (c : corner) (i : nat)
  (r acc : report) :
  (i < width img)%nat ->
  breaks_with img tolerance c i r ->
  (forall j, (j < i)%nat -> falls_through img tolerance c j) ->
  scan_corner img tolerance c acc = Return r.
Proof.
  intros Hi Hhit Hprev.
  unfold scan_corner. rewrite (range_split _ _ Hi).
  apply for_break_hit.
  - intros y Hy. apply in_range in Hy as (j & Hj & ->).
    apply scan_body_falls_through. now apply Hprev.
  - now apply scan_body_breaks.
Qed.

Lemma scan_corner_no_axis (img : image) (tolerance : Z) (c : corner)
  (acc r : report) :
  scan_corner img tolerance c acc = Return r ->
  snd r = NoAxis ->
  r = acc /\ finds_nothing img tolerance c.
Proof.
  intros Hrun Hno.
  destruct (scan_corner_inv _ _ _ _ _ Hrun) as [? | (i & Hi & Hhit & _)];
    [assumption |].
  destruct (breaks_with_in_range _ _ _ _ _ Hi Hhit) as [_ Hax]. contradiction.
Qed.

Lemma scanner_offsets_in_range_aux (img : image) (tolerance : Z) (rs : reports) :
  find_non_black_pixels img tolerance = Return rs ->
  let m := Z.max 0 (Z.of_nat (width img) - 1) in
  0 <= fst (top_left rs) <= m /\ 0 <= fst (top_right rs) <= m
  /\ 0 <= fst (bottom_left rs) <= m /\ 0 <= fst (bottom_right rs) <= m.
Proof.
  intros Hrun m.
  assert (Hc : forall c, 0 <= fst (report_of c rs) <= m).
  { intros c. subst m.
    destruct (reports_in_range _ _ _ c Hrun) as [-> | [Hr _]]; cbn [fst]; lia. }
  pose proof (Hc TopLeft). pose proof (Hc TopRight).
  pose proof (Hc BottomLeft). pose proof (Hc BottomRight).
  cbn [report_of] in *. auto.
Qed.

(** ** Reports of a run that returns *)

(** Every offset the scanner reports is an index of its loops: it is never
    negative and, on an image of width at least 1, at most [width - 1]. *)
Theorem scanner_offsets_in_range (img : image) (tolerance : Z) (rs : reports) :
  find_non_black_pixels img tolerance = Return rs ->
  offsets_nonneg rs
  /\ forall c, fst (report_of c rs) <= Z.max 0 (Z.of_nat (width img) - 1).
Proof.
  intros Hrun.
  destruct (scanner_offsets_in_range_aux img tolerance rs Hrun)
    as (Htl & Htr & Hbl & Hbr).
  split.
  - unfold offsets_nonneg. lia.
  - intros []; cbn [report_of]; lia.
Qed.

Lemma scanner_offsets_in_range_witness :
  offsets_nonneg (mkReports (0, NoAxis) (1, Vertical) (1, Vertical) (1, Vertical))
  /\ forall c,
       fst (report_of c (mkReports (0, NoAxis) (1, Vertical) (1, Vertical) (1, Vertical)))
       <= Z.max 0 (Z.of_nat (width right_dot) - 1).
Proof.
  apply (scanner_offsets_in_range right_dot 30). reflexivity.
Defined.

(** Every report of a run that returns is accounted for: either the loop of
    that corner fell through at every index and the report is the value of
    [(index, axis)] on entry, or the loop broke at the first index [i] whose
    pass did not fall through, and the report is [(i, horizontal)] with a
    bright pixel under the first test, or [(i, vertical)] with a background
    pixel under the first test and a bright one under the second. *)
Theorem scanner_report_sound (img : image) (tolerance : Z) (rs : reports)
  (c : corner) :
  find_non_black_pixels img tolerance = Return rs ->
  (report_of c rs = entry_report c rs /\ finds_nothing img tolerance c)
  \/ (exists i, (i < width img)%nat
                /\ breaks_with img tolerance c i (report_of c rs)
                /\ forall j, (j < i)%nat -> falls_through img tolerance c j).
Proof.
  intros Hrun.
  apply (scan_corner_inv img tolerance c (entry_report c rs)).
  now apply find_non_black_pixels_corner.
Qed.

Lemma scanner_report_sound_witness :
  (report_of TopRight (mkReports (0, NoAxis) (1, Vertical) (1, Vertical) (1, Vertical))
   = entry_report TopRight
       (mkReports (0, NoAxis) (1, Vertical) (1, Vertical) (1, Vertical))
   /\ finds_nothing right_dot 30 TopRight)
  \/ (exists i, (i < width right_dot)%nat
                /\ breaks_with right_dot 30 TopRight i
                     (report_of TopRight
                        (mkReports (0, NoAxis) (1, Vertical) (1, Vertical) (1, Vertical)))
                /\ forall j, (j < i)%nat -> falls_through right_dot 30 TopRight j).
Proof.
  apply (scanner_report_sound right_dot 30). reflexivity.
Defined.

(** When the first test of a corner reads background at index [i], the
    second reads a bright pixel there, and every earlier pass fell through,
    the loop of that corner ends with [(i, vertical)], and so does its
    report in every run that returns. *)
Theorem vertical_hit_reported (img : image) (tolerance : Z) (c : corner) (i : nat) :
  (i < width img)%nat ->
  black_at img tolerance (horizontal_index c img (Z.of_nat i)) ->
  nonblack_at img tolerance (vertical_index c img (Z.of_nat i)) ->
  (forall j, (j < i)%nat -> falls_through img tolerance c j) ->
  (forall acc, scan_corner img tolerance c acc = Return (Z.of_nat i, Vertical))
  /\ (forall rs, find_non_black_pixels img tolerance = Return rs ->
                 report_of c rs = (Z.of_nat i, Vertical)).
Proof.
  intros Hi Hh Hv Hprev.
  assert (Hscan : forall acc,
             scan_corner img tolerance c acc = Return (Z.of_nat i, Vertical)).
  { intros acc. apply (scan_corner_breaks img tolerance c i); try assumption.
    right. auto. }
  split; [exact Hscan |].
  intros rs Hrun.
  pose proof (find_non_black_pixels_corner _ _ _ c Hrun) as Hc.
  rewrite Hscan in Hc. now injection Hc.
Qed.

Lemma vertical_hit_reported_witness :
  (forall acc, scan_corner right_dot 30 TopRight acc = Return (1, Vertical))
  /\ (forall rs, find_non_black_pixels right_dot 30 = Return rs ->
                 report_of TopRight rs = (1, Vertical)).
Proof.
  apply (vertical_hit_reported right_dot 30 TopRight 1).
  - cbn. lia.
  - exists black. split; reflexivity.
  - exists red. split; reflexivity.
  - intros j Hj. assert (j = 0%nat) as -> by lia.
    split; exists black; split; reflexivity.
Defined.

(** A report without an axis is [(0, '')] and belongs to a corner whose loop
    found nothing; and when the last corner has no axis, no corner found
    anything and all four reports are [(0, '')]. *)
Theorem no_axis_means_nothing_found (img : image) (tolerance : Z) (rs : reports) :
  find_non_black_pixels img tolerance = Return rs ->
  (forall c, snd (report_of c rs) = NoAxis ->
             report_of c rs = (0, NoAxis) /\ finds_nothing img tolerance c)
  /\ (snd (bottom_right rs) = NoAxis ->
      rs = default_reports /\ forall c, finds_nothing img tolerance c).
Proof.
  intros Hrun. split.
  - intros c Hno. split.
    + destruct (reports_in_range _ _ _ c Hrun) as [-> | [_ Hax]];
        [reflexivity | contradiction].
    + pose proof (find_non_black_pixels_corner _ _ _ c Hrun) as Hc.
      now destruct (scan_corner_no_axis _ _ _ _ _ Hc Hno).
  - intros Hbr.
    destruct (find_non_black_pixels_inv _ _ _ Hrun) as (Htl & Htr & Hbl & Hbr').
    destruct (scan_corner_no_axis _ _ _ _ _ Hbr' Hbr) as [Ebr Nbr].
    rewrite Ebr in Hbr.
    destruct (scan_corner_no_axis _ _ _ _ _ Hbl Hbr) as [Ebl Nbl].
    rewrite Ebl in Hbr.
    destruct (scan_corner_no_axis _ _ _ _ _ Htr Hbr) as [Etr Ntr].
    rewrite Etr in Hbr.
    destruct (scan_corner_no_axis _ _ _ _ _ Htl Hbr) as [Etl Ntl].
    split.
    + destruct rs as [tl tr bl br]. cbn in *. unfold default_reports. congruence.
    + intros []; assumption.
Qed.

Lemma no_axis_means_nothing_found_witness :
  (forall c, report_of c default_reports = (0, NoAxis)
             /\ finds_nothing (bordered_square red) 30 c)
  /\ (default_reports = default_reports
      /\ forall c, finds_nothing (bordered_square red) 30 c).
Proof.
  destruct (no_axis_means_nothing_found (bordered_square red) 30 default_reports)
    as [Hc Hall]; [reflexivity |].
  split.
  - intros c. apply Hc. destruct c; reflexivity.
  - apply Hall. reflexivity.
Defined.

(** ** Tolerance *)

Lemma is_black_pixel_mono (p : pixel) (t1 t2 : Z) :
  t1 <= t2 -> is_black_pixel p t1 = true -> is_black_pixel p t2 = true.
Proof.
  intros Ht. unfold is_black_pixel. rewrite !forallb_forall.
  intros H ch Hch. specialize (H ch Hch).
  apply Z.leb_le. apply Z.leb_le in H. lia.
Qed.

Lemma is_black_pixel_anti (p : pixel) (t1 t2 : Z) :
  t1 <= t2 -> is_black_pixel p t2 = false -> is_black_pixel p t1 = false.
Proof.
  intros Ht H2. destruct (is_black_pixel p t1) eqn:H1; [| reflexivity].
  rewrite (is_black_pixel_mono p t1 t2 Ht H1) in H2. discriminate.
Qed.

Lemma falls_through_mono (img : image) (t1 t2 : Z) (c : corner) (i : nat) :
  t1 <= t2 -> falls_through img t1 c i -> falls_through img t2 c i.
Proof.
  intros Ht [(p & Hp & Bp) (q & Hq & Bq)].
  split; [exists p | exists q]; eauto using is_black_pixel_mono.
Qed.

(** A pass that reads both pixels under the larger tolerance falls through
    or breaks under the smaller one: it does not raise. *)
Lemma falls_through_lower (img : image) (t1 t2 : Z) (c : corner) (i : nat) :
  falls_through img t2 c i ->
  falls_through img t1 c i \/ exists r, breaks_with img t1 c i r.
Proof.
  intros [(p & Hp & Bp) (q & Hq & Bq)].
  destruct (is_black_pixel p t1) eqn:Bp1.
  - destruct (is_black_pixel q t1) eqn:Bq1.
    + left. split; [exists p | exists q]; auto.
    + right. exists (Z.of_nat i, Vertical). right.
      split; [reflexivity |]. split; [exists p | exists q]; auto.
  - right. exists (Z.of_nat i, Horizontal). left.
    split; [reflexivity | exists p; auto].
Qed.

Lemma breaks_with_lower (img : image) (t1 t2 : Z) (c : corner) (i : nat)
  (r2 : report) :
  t1 <= t2 -> breaks_with img t2 c i r2 -> exists r1, breaks_with img t1 c i r1.
Proof.
  intros Ht [[_ (p & Hp & Bp)] | [_ [(p & Hp & Bp) (q & Hq & Bq)]]].
  - exists (Z.of_nat i, Horizontal). left.
    split; [reflexivity | exists p; eauto using is_black_pixel_anti].
  - destruct (is_black_pixel p t1) eqn:Bp1.
    + exists (Z.of_nat i, Vertical). right.
      split; [reflexivity |].
      split; [exists p | exists q]; eauto using is_black_pixel_anti.
    + exists (Z.of_nat i, Horizontal). left.
      split; [reflexivity | exists p; auto].
Qed.

(** The first pass that does not fall through, among passes none of which
    raises. *)
Lemma first_break (img : image) (tolerance : Z) (c : corner) (n : nat) :
  (forall j, (j < n)%nat ->
     falls_through img tolerance c j \/ exists r, breaks_with img tolerance c j r) ->
  (forall j, (j < n)%nat -> falls_through img tolerance c j)
  \/ (exists i r, (i < n)%nat /\ breaks_with img tolerance c i r
                  /\ forall j, (j < i)%nat -> falls_through img tolerance c j).
Proof.
  induction n as [| n IH]; intros Hall.
  - left. intros j Hj. lia.
  - destruct IH as [Hprev | (i & r & Hi & Hhit & Hprev)].
    + intros j Hj. apply Hall. lia.
    + destruct (Hall n (Nat.lt_succ_diag_r n)) as [Hn | [r Hn]].
      * left. intros j Hj.
        destruct (Nat.eq_dec j n) as [-> | Hne]; [assumption | apply Hprev; lia].
      * right. exists n, r. split; [lia |]. split; assumption.
    + right. exists i, r. split; [lia |]. split; assumption.
Qed.

(** Raising the tolerance never finds content sooner.  A corner that finds
    nothing under a tolerance finds nothing under a larger one; and when the
    loop of a corner breaks under the larger tolerance, it also breaks, at
    the same index or before, and without raising, under the smaller
    one. *)
Theorem raising_tolerance_delays_hit (img : image) (t1 t2 : Z) (c : corner) :
  t1 <= t2 ->
  (finds_nothing img t1 c -> finds_nothing img t2 c)
  /\ (forall acc r2,
        scan_corner img t2 c acc = Return r2 ->
        ~ finds_nothing img t2 c ->
        exists r1, scan_corner img t1 c acc = Return r1
                   /\ 0 <= fst r1 <= fst r2
                   /\ snd r1 <> NoAxis /\ snd r2 <> NoAxis).
Proof.
  intros Ht. split.
  - intros Hnone x Hx.
    pose proof Hx as Hx'. apply in_range in Hx' as (j & Hj & ->).
    apply scan_body_falls_through.
    apply (falls_through_mono img t1 t2 c j Ht).
    apply scan_body_falls_through. now apply Hnone.
  - intros acc r2 Hrun Hsome.
    destruct (scan_corner_inv _ _ _ _ _ Hrun) as [[_ Hnone] | (i2 & Hi2 & Hhit2 & Hprev2)];
      [contradiction |].
    destruct (breaks_with_in_range _ _ _ _ _ Hi2 Hhit2) as [_ Hax2].
    assert (Hfst2 : fst r2 = Z.of_nat i2)
      by (destruct Hhit2 as [[-> _] | [-> _]]; reflexivity).
    destruct (first_break img t1 c i2) as [Hprev1 | (i1 & r1 & Hi1 & Hhit1 & Hprev1)].
    + intros j Hj. apply (falls_through_lower img t1 t2). now apply Hprev2.
    + destruct (breaks_with_lower img t1 t2 c i2 r2 Ht Hhit2) as [r1 Hhit1].
      exists r1. split; [now apply (scan_corner_breaks img t1 c i2) |].
      destruct (breaks_with_in_range _ _ _ _ _ Hi2 Hhit1) as [_ Hax1].
      assert (fst r1 = Z.of_nat i2)
        by (destruct Hhit1 as [[-> _] | [-> _]]; reflexivity).
      repeat split; try assumption; lia.
    + exists r1. split; [apply (scan_corner_breaks img t1 c i1); auto; lia |].
      assert (Hi1' : (i1 < width img)%nat) by lia.
      destruct (breaks_with_in_range _ _ _ _ _ Hi1' Hhit1) as [_ Hax1].
      assert (fst r1 = Z.of_nat i1)
        by (destruct Hhit1 as [[-> _] | [-> _]]; reflexivity).
      repeat split; try assumption; lia.
Qed.

Lemma raising_tolerance_delays_hit_witness :
  finds_nothing right_dot 200 BottomLeft
  /\ exists r1, scan_corner right_dot 30 TopRight (0, NoAxis) = Return r1
                /\ 0 <= fst r1 <= fst (1, Vertical)
                /\ snd r1 <> NoAxis /\ snd (1, Vertical) <> NoAxis.
Proof.
  split.
  - apply (raising_tolerance_delays_hit right_dot 30 200 BottomLeft); [lia |].
    intros x Hx. cbn in Hx.
    destruct Hx as [<- | [<- | [<- | []]]]; reflexivity.
  - apply (raising_tolerance_delays_hit right_dot 30 200 TopRight); [lia | reflexivity |].
    intros Hnone.
    assert (Hin : In 1 (range (width right_dot))) by (cbn; auto).
    specialize (Hnone 1 Hin). discriminate Hnone.
Defined.

(** ** Left and right *)

Lemma getitem_mirror (img : image) (r c : Z) :
  0 <= c < Z.of_nat (width img) ->
  getitem (mirror img) r c = getitem img r (Z.of_nat (width img) - c - 1).
Proof.
  intros Hc. unfold getitem. cbn [height width mirror].
  destruct (axis_index r (height img)) as [r' |]; cbn [bind]; [| reflexivity].
  rewrite !axis_index_in_range by lia. cbn [bind px mirror].
  do 2 f_equal. lia.
Qed.

Lemma scan_body_mirror (img : image) (tolerance : Z) (c : corner) (i : nat) :
  (i < width img)%nat ->
  scan_body (mirror img) tolerance (mirror_corner c) (Z.of_nat i)
  = scan_body img tolerance c (Z.of_nat i).
Proof.
  intros Hi. unfold scan_body.
  set (w := Z.of_nat (width img)).
  assert (E1 : w - (w - Z.of_nat i - 1) - 1 = Z.of_nat i) by lia.
  assert (E2 : w - (w - 1) - 1 = 0) by lia.
  assert (E3 : w - 0 - 1 = w - 1) by lia.
  destruct c; cbn [mirror_corner horizontal_index vertical_index fst snd];
    cbn [height width mirror]; fold w;
    rewrite !getitem_mirror by (fold w; lia); fold w;
    rewrite ?E1, ?E2, ?E3; reflexivity.
Qed.

Lemma for_break_ext (f g : Z -> result (option report)) (xs : list Z) (acc : report) :
  (forall x, In x xs -> f x = g x) ->
  for_break f xs acc = for_break g xs acc.
Proof.
  induction xs as [| x xs IH]; intros Hfg; cbn; [reflexivity |].
  rewrite (Hfg x (or_introl eq_refl)).
  destruct (g x) as [[hit |] |]; cbn; try reflexivity.
  apply IH. intros y Hy. apply Hfg. now right.
Qed.

(** The scanner treats left and right alike: the loop of a corner on the
    mirrored image does what the loop of the mirrored corner does on the
    image, exceptions included. *)
Theorem scan_corner_mirror (img : image) (tolerance : Z) (c : corner) (acc : report) :
  scan_corner (mirror img) tolerance (mirror_corner c) acc
  = scan_corner img tolerance c acc.
Proof.
  unfold scan_corner. cbn [width mirror].
  apply for_break_ext. intros x Hx.
  apply in_range in Hx as (i & Hi & ->).
  now apply scan_body_mirror.
Qed.

(** * The box of a scan *)

(** Offsets of a scan are at most [W - 1], so a margin [m >= 0] moves the
    boundaries of its box at most [W - 1 + m] in from the edge they start
    at; with margin 0 on an image at least as high as wide, no coordinate
    is negative or beyond the image. *)
Theorem scanned_box_bounds (img : image) (tolerance : Z) (rs : reports) (m : Z) :
  find_non_black_pixels img tolerance = Return rs ->
  (1 <= width img)%nat ->
  0 <= m ->
  let W := Z.of_nat (width img) in
  let H := Z.of_nat (height img) in
  let b := crop_box rs W H m in
  (0 <= left b <= W - 1 + m /\ 1 - m <= right b <= W
   /\ 0 <= top b <= W - 1 + m /\ H - W + 1 - m <= bottom b <= H)
  /\ (m = 0 -> W <= H ->
      0 <= left b < W /\ 0 < right b <= W /\ 0 <= top b < H /\ 0 < bottom b <= H).
Proof.
  intros Hrun Hw Hm W H b.
  destruct (scanner_offsets_in_range_aux img tolerance rs Hrun) as (Htl & Htr & Hbl & Hbr).
  fold W in Htl, Htr, Hbl, Hbr.
  assert (HW : 1 <= W) by (unfold W; lia).
  assert (Hbounds :
    0 <= left b <= W - 1 + m /\ 1 - m <= right b <= W
    /\ 0 <= top b <= W - 1 + m /\ H - W + 1 - m <= bottom b <= H).
  { subst b. destruct rs as [[o1 a1] [o2 a2] [o3 a3] [o4 a4]].
    unfold crop_box.
    cbn [top_left top_right bottom_left bottom_right fst snd
         left right top bottom] in *.
    destruct a1, a2, a3, a4; cbn [axis_eqb]; lia. }
  split; [exact Hbounds |].
  intros -> HWH. lia.
Qed.

Lemma scanned_box_bounds_witness :
  (0 <= left (crop_box (mkReports (0, NoAxis) (1, Vertical) (1, Vertical) (1, Vertical))
                       3 3 0) < 3
   /\ 0 < right (crop_box (mkReports (0, NoAxis) (1, Vertical) (1, Vertical) (1, Vertical))
                          3 3 0) <= 3
   /\ 0 <= top (crop_box (mkReports (0, NoAxis) (1, Vertical) (1, Vertical) (1, Vertical))
                         3 3 0) < 3
   /\ 0 < bottom (crop_box (mkReports (0, NoAxis) (1, Vertical) (1, Vertical) (1, Vertical))
                           3 3 0) <= 3).
Proof.
  apply (scanned_box_bounds right_dot 30
           (mkReports (0, NoAxis) (1, Vertical) (1, Vertical) (1, Vertical)) 0).
  - reflexivity.
  - cbn. lia.
  - lia.
  - reflexivity.
  - cbn. lia.
Defined.

(** * Slicing *)

Lemma slice_bound_le (i : Z) (n : nat) : (slice_bound i n <= n)%nat.
Proof.
  unfold slice_bound. destruct (i <? 0) eqn:E.
  - apply Z.ltb_lt in E. lia.
  - apply Z.ltb_ge in E. lia.
Qed.

Lemma slice_bound_in_range (i : Z) (n : nat) :
  0 <= i <= Z.of_nat n -> slice_bound i n = Z.to_nat i.
Proof.
  intros Hi. unfold slice_bound.
  replace (i <? 0) with false by (symmetry; apply Z.ltb_ge; lia).
  f_equal. lia.
Qed.

(** With a box inside the image, [top <= bottom] and [left <= right], the
    slice is exactly that region: [bottom - top] rows, [right - left]
    columns, and at [(i, j)] the pixel of the image at
    [(top + i, left + j)]. *)
Theorem image_slice_valid_box (img : image) (t b l r : Z) :
  0 <= t <= b -> b <= Z.of_nat (height img) ->
  0 <= l <= r -> r <= Z.of_nat (width img) ->
  height (image_slice img t b l r) = Z.to_nat (b - t)
  /\ width (image_slice img t b l r) = Z.to_nat (r - l)
  /\ forall i j, px (image_slice img t b l r) i j
                 = px img (Z.to_nat t + i)%nat (Z.to_nat l + j)%nat.
Proof.
  intros Htb Hb Hlr Hr. unfold image_slice. cbn [height width px].
  rewrite !slice_bound_in_range by lia.
  split; [lia |]. split; [lia | reflexivity].
Qed.

Lemma image_slice_valid_box_witness :
  height (image_slice late_content 2 8 3 7) = Z.to_nat (8 - 2)
  /\ width (image_slice late_content 2 8 3 7) = Z.to_nat (7 - 3)
  /\ forall i j, px (image_slice late_content 2 8 3 7) i j
                 = px late_content (Z.to_nat 2 + i)%nat (Z.to_nat 3 + j)%nat.
Proof.
  apply (image_slice_valid_box late_content 2 8 3 7); cbn; lia.
Defined.

(** Whatever the box, negative or inverted or beyond the image, the slice
    is a rectangle of the image: it is no higher and no wider, and its
    pixels are those of the image from some row and column on, all of them
    inside the image. *)
Theorem image_slice_within (img : image) (t b l r : Z) :
  (height (image_slice img t b l r) <= height img)%nat
  /\ (width (image_slice img t b l r) <= width img)%nat
  /\ exists r0 c0,
       forall i j,
         (i < height (image_slice img t b l r))%nat ->
         (j < width (image_slice img t b l r))%nat ->
         (r0 + i < height img)%nat /\ (c0 + j < width img)%nat
         /\ px (image_slice img t b l r) i j = px img (r0 + i)%nat (c0 + j)%nat.
Proof.
  unfold image_slice. cbn [height width px].
  pose proof (slice_bound_le b (height img)).
  pose proof (slice_bound_le r (width img)).
  split; [lia |]. split; [lia |].
  exists (slice_bound t (height img)), (slice_bound l (width img)).
  intros i j Hi Hj. split; [lia |]. split; [lia | reflexivity].
Qed.

Lemma slice_bound_mono (n : nat) (i j : Z) :
  0 <= i <= j -> (slice_bound i n <= slice_bound j n)%nat.
Proof.
  intros Hij. unfold slice_bound.
  replace (i <? 0) with false by (symmetry; apply Z.ltb_ge; lia).
  replace (j <? 0) with false by (symmetry; apply Z.ltb_ge; lia).
  lia.
Qed.

Lemma slice_bound_negative (n : nat) (i : Z) :
  - Z.of_nat n <= i < 0 -> slice_bound i n = slice_bound (Z.of_nat n + i) n.
Proof.
  intros Hi. unfold slice_bound.
  replace (i <? 0) with true by (symmetry; apply Z.ltb_lt; lia).
  replace (Z.of_nat n + i <? 0) with false by (symmetry; apply Z.ltb_ge; lia).
  lia.
Qed.

(** A box whose right bound is not beyond its left one, or whose bottom
    bound is not beyond its top one (none of them negative), gives a slice
    that holds no pixel. *)
Theorem image_slice_inverted_empty (img : image) (t b l r : Z) :
  0 <= r <= l \/ 0 <= b <= t ->
  (height (image_slice img t b l r) * width (image_slice img t b l r) = 0)%nat.
Proof.
  unfold image_slice. cbn [height width].
  intros [Hrl | Hbt].
  - pose proof (slice_bound_mono (width img) r l Hrl).
    replace (slice_bound r (width img) - slice_bound l (width img))%nat
      with 0%nat by lia.
    apply Nat.mul_0_r.
  - pose proof (slice_bound_mono (height img) b t Hbt).
    replace (slice_bound b (height img) - slice_bound t (height img))%nat
      with 0%nat by lia.
    reflexivity.
Qed.

Lemma image_slice_inverted_empty_witness :
  (height (image_slice late_content 0 10 13 5)
   * width (image_slice late_content 0 10 13 5) = 0)%nat.
Proof.
  apply (image_slice_inverted_empty late_content 0 10 13 5). left. lia.
Defined.

(** A negative right or bottom bound does not fail: [-k] is taken for the
    bound [k] short of the far edge, so the slice loses its last [k]
    columns or rows. *)
Theorem image_slice_negative_bound (img : image) (t b l r : Z) :
  (- Z.of_nat (width img) <= r < 0 ->
   image_slice img t b l r = image_slice img t b l (Z.of_nat (width img) + r))
  /\ (- Z.of_nat (height img) <= b < 0 ->
      image_slice img t b l r = image_slice img t (Z.of_nat (height img) + b) l r).
Proof.
  unfold image_slice. split.
  - intros Hr. now rewrite (slice_bound_negative _ _ Hr).
  - intros Hb. now rewrite (slice_bound_negative _ _ Hb).
Qed.

Lemma image_slice_negative_bound_witness :
  image_slice late_content 0 (-4) 0 (-3)
  = image_slice late_content 0 (-4) 0 (Z.of_nat (width late_content) + -3)
  /\ image_slice late_content 0 (-4) 0 (-3)
     = image_slice late_content 0 (Z.of_nat (height late_content) + -4) 0 (-3).
Proof.
  destruct (image_slice_negative_bound late_content 0 (-4) 0 (-3)) as [Hr Hb].
  split; [apply Hr | apply Hb]; cbn; lia.
Defined.

Lemma image_slice_full (img : image) :
  image_slice img 0 (Z.of_nat (height img)) 0 (Z.of_nat (width img)) = img.
Proof.
  destruct img as [h w f]. unfold image_slice. cbn [height width px].
  rewrite !slice_bound_in_range by lia.
  rewrite !Nat2Z.id. cbn [Z.to_nat]. rewrite !Nat.sub_0_r. reflexivity.
Qed.

(** * A run without evidence *)

(** On a background image at least as high as wide the scanner returns, and
    [crop_and_save] then hands the encoder the image itself, uncut, whatever
    the margin. *)
Theorem background_run_saves_input (img : image) (tolerance : Z) :
  (width img <= height img)%nat ->
  all_background img tolerance ->
  exists rs,
    find_non_black_pixels img tolerance = Return rs
    /\ forall (R : Type) (imwrite : string -> image -> R) name margin,
         crop_and_save R imwrite img rs name margin
         = imwrite (cropped_filename name) img.
Proof.
  intros Hwh Hbg. exists default_reports.
  split; [now apply all_background_tall |].
  intros R imwrite name margin. unfold crop_and_save.
  rewrite crop_box_default. cbn [top bottom left right].
  now rewrite image_slice_full.
Qed.

Lemma background_run_saves_input_witness :
  exists rs,
    find_non_black_pixels (mkImage 2 2 (fun _ _ => black)) 30 = Return rs
    /\ forall (R : Type) (imwrite : string -> image -> R) name margin,
         crop_and_save R imwrite (mkImage 2 2 (fun _ _ => black)) rs name margin
         = imwrite (cropped_filename name) (mkImage 2 2 (fun _ _ => black)).
Proof.
  apply (background_run_saves_input (mkImage 2 2 (fun _ _ => black)) 30).
  - cbn. lia.
  - intros r c _ _. reflexivity.
Defined.

(** * File names, continued *)

Section MoreStrings.

Local Open Scope string_scope.

Lemma str_length_app (a b : string) :
  String.length (a ++ b) = (String.length a + String.length b)%nat.
Proof.
  induction a as [| c a IH]; cbn; [reflexivity | now rewrite IH].
Qed.

Lemma has_char_app (ch : ascii) (a b : string) :
  has_char ch (a ++ b) = has_char ch a || has_char ch b.
Proof.
  induction a as [| c a IH]; cbn; [reflexivity |].
  now rewrite IH, orb_assoc.
Qed.

Lemma rfind_from_absent (ch : ascii) (s : string) (i last : Z) :
  has_char ch s = false -> rfind_from ch s i last = last.
Proof.
  revert i last. induction s as [| c s IH]; intros i last; cbn; [reflexivity |].
  intros H. apply orb_false_iff in H as [Hc Hs].
  rewrite Hc. now apply IH.
Qed.

Lemma rfind_from_app (ch : ascii) (a b : string) (i last : Z) :
  rfind_from ch (a ++ b) i last
  = rfind_from ch b (i + Z.of_nat (String.length a)) (rfind_from ch a i last).
Proof.
  revert i last. induction a as [| c a IH]; intros i last; cbn [append rfind_from].
  - cbn. now rewrite Z.add_0_r.
  - rewrite IH. cbn [String.length]. f_equal. lia.
Qed.

(** Past the last occurrence of a character there is none. *)
Lemma no_char_after (ch : ascii) (s : string) (i last d : Z) :
  last < i -> i <= d -> rfind_from ch s i last < d ->
  has_char ch (str_drop (Z.to_nat (d - i)) s) = false.
Proof.
  revert i last. induction s as [| c s IH]; intros i last Hlast Hid Hd.
  - now destruct (Z.to_nat (d - i)).
  - destruct (Z.eq_dec d i) as [-> | Hne].
    + rewrite Z.sub_diag. cbn [Z.to_nat str_drop].
      destruct (rfind_from_spec ch (String c s) i last) as [[_ Hno] | [Hr _]];
        [assumption | lia].
    + replace (Z.to_nat (d - i)) with (S (Z.to_nat (d - (i + 1)))) by lia.
      cbn [str_drop]. cbn [rfind_from] in Hd.
      apply (IH (i + 1) (if Ascii.eqb c ch then i else last)).
      * destruct (Ascii.eqb c ch); lia.
      * lia.
      * assumption.
Qed.

Lemma cropped_filename_length (p : string) :
  String.length (cropped_filename p) = (String.length p + 8)%nat.
Proof.
  unfold cropped_filename.
  pose proof (splitext_concat p) as Hcat.
  destruct (splitext p) as [base ext]. cbn [fst snd] in Hcat.
  rewrite !str_length_app. cbn [String.length].
  rewrite <- Hcat. rewrite str_length_app. lia.
Qed.

Lemma cropped_filename_differs_aux (p : string) : cropped_filename p <> p.
Proof.
  intros Heq. pose proof (cropped_filename_length p) as Hlen.
  rewrite Heq in Hlen. lia.
Qed.

(** The name written is the name read with eight characters more: the
    input file is never the one that is overwritten. *)
Theorem cropped_filename_differs (p : string) :
  String.length (cropped_filename p) = (String.length p + 8)%nat
  /\ cropped_filename p <> p.
Proof.
  split; [apply cropped_filename_length | apply cropped_filename_differs_aux].
Qed.

(** A path without a dot has no extension: [_cropped] goes to its end. *)
Theorem cropped_filename_no_dot (p : string) :
  has_char "." p = false ->
  splitext p = (p, "") /\ cropped_filename p = p ++ "_cropped".
Proof.
  intros Hno.
  assert (Hsplit : splitext p = (p, "")).
  { unfold splitext, rfind. rewrite (rfind_from_absent "." p 0 (-1) Hno).
    pose proof (rfind_lower "/" p) as Hsep. unfold rfind in Hsep.
    replace (-1 >? rfind_from "/" p 0 (-1))%Z with false
      by (symmetry; rewrite Z.gtb_ltb; apply Z.ltb_ge; lia).
    cbn [andb]. now rewrite str_upto_0. }
  split; [exact Hsplit |].
  unfold cropped_filename. rewrite Hsplit. now rewrite append_empty_r.
Qed.

Lemma cropped_filename_no_dot_witness :
  splitext "scans/page" = ("scans/page", "")
  /\ cropped_filename "scans/page" = "scans/page" ++ "_cropped".
Proof.
  apply (cropped_filename_no_dot "scans/page"). reflexivity.
Defined.

(** An extension never holds a path separator: [_cropped] is put into the
    last component of the path, never into a directory name. *)
Theorem extension_has_no_separator (p : string) :
  has_char "/" (snd (splitext p)) = false.
Proof.
  unfold splitext.
  destruct (rfind "." p >? rfind "/" p)%Z eqn:Egt; cbn [andb fst snd];
    [| now rewrite str_upto_0].
  destruct (skip_leading_dots _ _ _); cbn [fst snd]; [| now rewrite str_upto_0].
  apply Z.gtb_lt in Egt.
  pose proof (rfind_lower "/" p) as Hsep.
  unfold str_from, slice_bound. unfold rfind in *.
  destruct (rfind_from_spec "." p 0 (-1)) as [[Hd _] | [Hrange _]]; [lia |].
  replace (rfind_from "." p 0 (-1) <? 0)%Z with false
    by (symmetry; apply Z.ltb_ge; lia).
  rewrite Z.min_l by lia.
  rewrite <- (Z.sub_0_r (rfind_from "." p 0 (-1))) at 1.
  apply (no_char_after "/" p 0 (-1)); lia.
Qed.

End MoreStrings.

Section KeepExtension.

Local Open Scope string_scope.

Lemma str_app_assoc (a b c : string) : (a ++ b) ++ c = a ++ (b ++ c).
Proof.
  induction a as [| x a IH]; cbn; [reflexivity | now rewrite IH].
Qed.

Lemma str_take_app_length (a b : string) : str_take (String.length a) (a ++ b) = a.
Proof.
  induction a as [| x a IH]; cbn.
  - now destruct b.
  - now rewrite IH.
Qed.

Lemma str_drop_app_length (a b : string) : str_drop (String.length a) (a ++ b) = b.
Proof.
  induction a as [| x a IH]; cbn; [reflexivity | exact IH].
Qed.

Lemma str_take_length (n : nat) (s : string) :
  (n <= String.length s)%nat -> String.length (str_take n s) = n.
Proof.
  revert s. induction n as [| n IH]; intros [| c s] Hn; cbn in *;
    try reflexivity; try lia.
  rewrite IH; [reflexivity | lia].
Qed.

Lemma str_take_1_drop_app (n : nat) (a b : string) :
  (n < String.length a)%nat ->
  str_take 1 (str_drop n (a ++ b)) = str_take 1 (str_drop n a).
Proof.
  revert a. induction n as [| n IH]; intros [| c a] Hn; cbn in *; try lia.
  - reflexivity.
  - apply IH. lia.
Qed.

Lemma str_slice_char (s : string) (i : Z) :
  0 <= i < Z.of_nat (String.length s) ->
  str_slice s i (i + 1) = str_take 1 (str_drop (Z.to_nat i) s).
Proof.
  intros Hi. unfold str_slice.
  rewrite !slice_bound_in_range by lia.
  replace (Z.to_nat (i + 1) - Z.to_nat i)%nat with 1%nat by lia.
  reflexivity.
Qed.

Lemma str_slice_char_app (a b : string) (i : Z) :
  0 <= i < Z.of_nat (String.length a) ->
  str_slice (a ++ b) i (i + 1) = str_slice a i (i + 1).
Proof.
  intros Hi.
  rewrite !str_slice_char by (rewrite ?str_length_app; lia).
  apply str_take_1_drop_app. lia.
Qed.

Lemma skip_leading_dots_ext (p q : string) (n : nat) (fi : Z) :
  (forall k, (k < n)%nat ->
     str_slice p (fi + Z.of_nat k) (fi + Z.of_nat k + 1)
     = str_slice q (fi + Z.of_nat k) (fi + Z.of_nat k + 1)) ->
  skip_leading_dots p n fi = skip_leading_dots q n fi.
Proof.
  revert fi. induction n as [| n IH]; intros fi Hsame; cbn [skip_leading_dots];
    [reflexivity |].
  pose proof (Hsame 0%nat (Nat.lt_0_succ n)) as H0.
  cbn [Z.of_nat] in H0. rewrite Z.add_0_r in H0. rewrite H0.
  destruct (negb _); [reflexivity |].
  apply IH. intros k Hk.
  specialize (Hsame (S k) (proj1 (Nat.succ_lt_mono k n) Hk)).
  replace (fi + 1 + Z.of_nat k)%Z with (fi + Z.of_nat (S k))%Z by lia.
  exact Hsame.
Qed.

Lemma skip_leading_dots_found (p : string) (n : nat) (fi : Z) (k : nat) :
  (k < n)%nat ->
  String.eqb (str_slice p (fi + Z.of_nat k) (fi + Z.of_nat k + 1)) "." = false ->
  skip_leading_dots p n fi = true.
Proof.
  revert fi k. induction n as [| n IH]; intros fi k Hk Hne; [lia |].
  cbn [skip_leading_dots].
  destruct (String.eqb (str_slice p fi (fi + 1)) ".") eqn:E0; cbn [negb];
    [| reflexivity].
  destruct k as [| k].
  - cbn [Z.of_nat] in Hne. rewrite Z.add_0_r in Hne. congruence.
  - apply (IH (fi + 1)%Z k); [lia |].
    replace (fi + 1 + Z.of_nat k)%Z with (fi + Z.of_nat (S k))%Z by lia.
    exact Hne.
Qed.

(** The two ways [splitext] can go, with what each says about the path. *)
Lemma splitext_cases (p : string) :
  (splitext p = (p, "")
   /\ ((rfind "." p <= rfind "/" p)%Z
       \/ ((rfind "/" p < rfind "." p < Z.of_nat (String.length p))%Z
           /\ skip_leading_dots p (Z.to_nat (rfind "." p - (rfind "/" p + 1)))
                                (rfind "/" p + 1) = false)))
  \/ (exists dn rest,
        rfind "." p = Z.of_nat dn
        /\ (dn < String.length p)%nat
        /\ (rfind "/" p < Z.of_nat dn)%Z
        /\ splitext p = (str_take dn p, str_drop dn p)
        /\ str_drop dn p = String "." rest
        /\ has_char "." rest = false).
Proof.
  pose proof (rfind_lower "/" p) as Hsep.
  unfold splitext.
  destruct (rfind "." p >? rfind "/" p)%Z eqn:Egt; cbn [andb].
  - apply Z.gtb_lt in Egt.
    assert (Hd : exists rest,
               (0 <= rfind "." p < Z.of_nat (String.length p))%Z
               /\ str_drop (Z.to_nat (rfind "." p)) p = String "." rest
               /\ has_char "." rest = false).
    { unfold rfind in *.
      destruct (rfind_from_spec "." p 0 (-1)) as [[Hd _] | [Hrange (rest & Hrest & Hno)]];
        [lia |].
      exists rest. rewrite Z.sub_0_r in Hrest. repeat split; try assumption; lia. }
    destruct Hd as (rest & Hrange & Hrest & Hno).
    destruct (skip_leading_dots _ _ _) eqn:Eskip.
    + right. exists (Z.to_nat (rfind "." p)), rest.
      split; [lia |]. split; [lia |]. split; [lia |].
      split; [| split; assumption].
      unfold str_upto, str_from.
      now rewrite slice_bound_in_range by lia.
    + left. rewrite str_upto_0. split; [reflexivity |]. right. split; [lia | reflexivity].
  - left. rewrite str_upto_0. split; [reflexivity |]. left.
    rewrite Z.gtb_ltb in Egt. apply Z.ltb_ge in Egt. exact Egt.
Qed.

Lemma rfind_app_cropped (ch : ascii) (p : string) :
  has_char ch "_cropped" = false ->
  rfind ch (p ++ "_cropped") = rfind ch p.
Proof.
  intros Hno. unfold rfind. rewrite rfind_from_app.
  now apply rfind_from_absent.
Qed.

Lemma splitext_cropped_no_extension (p : string) :
  splitext p = (p, "") ->
  (rfind "." p <= rfind "/" p)%Z
  \/ ((rfind "/" p < rfind "." p < Z.of_nat (String.length p))%Z
      /\ skip_leading_dots p (Z.to_nat (rfind "." p - (rfind "/" p + 1)))
                           (rfind "/" p + 1) = false) ->
  splitext (p ++ "_cropped") = (p ++ "_cropped", "").
Proof.
  intros _ Hc.
  pose proof (rfind_lower "/" p) as Hsep.
  unfold splitext.
  rewrite !rfind_app_cropped by reflexivity.
  destruct Hc as [Hle | [Hlt Hskip]].
  - replace (rfind "." p >? rfind "/" p)%Z with false
      by (symmetry; rewrite Z.gtb_ltb; apply Z.ltb_ge; lia).
    cbn [andb]. now rewrite str_upto_0.
  - rewrite (skip_leading_dots_ext (p ++ "_cropped") p).
    + rewrite Hskip, andb_false_r. now rewrite str_upto_0.
    + intros k Hk. apply str_slice_char_app. lia.
Qed.

Lemma splitext_cropped_extension (p : string) (dn : nat) (rest : string) :
  (dn < String.length p)%nat ->
  (rfind "/" p < Z.of_nat dn)%Z ->
  str_drop dn p = String "." rest ->
  has_char "." rest = false ->
  splitext (str_take dn p ++ "_cropped" ++ str_drop dn p)
  = (str_take dn p ++ "_cropped", str_drop dn p).
Proof.
  intros Hdn Hsep Hrest Hno.
  pose proof (rfind_lower "/" p) as Hlow.
  unfold splitext. unfold rfind in *.
  set (sep := rfind_from "/" p 0 (-1)) in *.
  set (base := str_take dn p).
  assert (Hlen : String.length base = dn) by (apply str_take_length; lia).
  assert (Hext : has_char "/" (str_drop dn p) = false).
  { replace dn with (Z.to_nat (Z.of_nat dn - 0)) by lia.
    apply (no_char_after "/" p 0 (-1)); [lia | lia | exact Hsep]. }
  rewrite Hrest in *.
  assert (Hp : base ++ String "." rest = p)
    by (unfold base; rewrite <- Hrest; apply str_take_drop).
  assert (Hsepb : rfind_from "/" base 0 (-1) = sep).
  { unfold sep. rewrite <- Hp. rewrite rfind_from_app.
    symmetry. now apply rfind_from_absent. }
  set (out := base ++ "_cropped" ++ String "." rest).
  assert (Hsepo : rfind_from "/" out 0 (-1) = sep).
  { unfold out. rewrite rfind_from_app, Hsepb.
    apply rfind_from_absent. rewrite has_char_app, Hext. reflexivity. }
  assert (Hdoto : rfind_from "." out 0 (-1) = (Z.of_nat dn + 8)%Z).
  { unfold out. rewrite rfind_from_app, Hlen.
    rewrite (rfind_from_app "." "_cropped" (String "." rest)).
    cbn [rfind_from String.length Ascii.eqb Bool.eqb].
    rewrite rfind_from_absent by assumption. cbn. lia. }
  assert (Hlo : String.length out = (dn + 8 + S (String.length rest))%nat).
  { unfold out. rewrite !str_length_app, Hlen. cbn [String.length]. lia. }
  rewrite Hsepo, Hdoto.
  replace (Z.of_nat dn + 8 >? sep)%Z with true
    by (symmetry; apply Z.gtb_lt; lia).
  rewrite (skip_leading_dots_found out _ _ (Z.to_nat (Z.of_nat dn - (sep + 1)))).
  - cbn [andb]. unfold str_upto, str_from.
    rewrite slice_bound_in_range by lia.
    replace (Z.to_nat (Z.of_nat dn + 8)) with (String.length (base ++ "_cropped"))
      by (rewrite str_length_app, Hlen; cbn [String.length]; lia).
    unfold out. rewrite <- str_app_assoc.
    now rewrite str_take_app_length, str_drop_app_length.
  - lia.
  - replace (sep + 1 + Z.of_nat (Z.to_nat (Z.of_nat dn - (sep + 1))))%Z
      with (Z.of_nat dn) by lia.
    rewrite str_slice_char by lia.
    rewrite Nat2Z.id. unfold out. rewrite <- Hlen at 1.
    rewrite str_drop_app_length. reflexivity.
Qed.

(** The written name keeps the extension of the name read, so the encoder
    chooses the format the input had: splitting the written name gives the
    old base followed by [_cropped], and the old extension. *)
Theorem cropped_filename_keeps_extension (p : string) :
  splitext (cropped_filename p)
  = (fst (splitext p) ++ "_cropped", snd (splitext p)).
Proof.
  unfold cropped_filename.
  destruct (splitext_cases p)
    as [[Hs Hc] | (dn & rest & _ & Hdn & Hsep & Hs & Hrest & Hno)];
    rewrite Hs; cbn [fst snd].
  - change ("_cropped" ++ "") with "_cropped".
    now apply splitext_cropped_no_extension.
  - now apply (splitext_cropped_extension p dn rest).
Qed.

(** A name that starts its path component with a dot and has no other dot
    is all base: [_cropped] goes after it, and the written name has no
    extension for the encoder to go by. *)
Theorem cropped_filename_hidden (dir name : string) :
  has_char "." name = false ->
  has_char "/" name = false ->
  cropped_filename ("." ++ name) = "." ++ name ++ "_cropped"
  /\ cropped_filename (dir ++ "/." ++ name) = dir ++ "/." ++ name ++ "_cropped".
Proof.
  intros Hdot Hsep.
  assert (Hgen : forall pre,
             rfind "/" (pre ++ "." ++ name) = Z.of_nat (String.length pre) - 1 ->
             splitext (pre ++ "." ++ name) = (pre ++ "." ++ name, "")).
  { intros pre Hpre. unfold splitext. rewrite Hpre.
    assert (Hd : rfind "." (pre ++ "." ++ name) = Z.of_nat (String.length pre)).
    { unfold rfind. rewrite rfind_from_app.
      cbn [append rfind_from Ascii.eqb Bool.eqb].
      rewrite rfind_from_absent by assumption. lia. }
    rewrite Hd.
    replace (Z.to_nat (Z.of_nat (String.length pre)
                       - (Z.of_nat (String.length pre) - 1 + 1))) with 0%nat by lia.
    cbn [skip_leading_dots]. rewrite andb_false_r. now rewrite str_upto_0. }
  unfold cropped_filename. split.
  - change ("." ++ name) with ("" ++ "." ++ name) at 1.
    rewrite (Hgen "").
    + reflexivity.
    + unfold rfind. cbn [append rfind_from Ascii.eqb Bool.eqb String.length].
      rewrite rfind_from_absent by assumption. reflexivity.
  - replace (dir ++ "/." ++ name) with ((dir ++ "/") ++ "." ++ name)
      by (rewrite str_app_assoc; reflexivity).
    rewrite (Hgen (dir ++ "/")).
    + rewrite !str_app_assoc. reflexivity.
    + unfold rfind. rewrite !rfind_from_app.
      cbn [append rfind_from Ascii.eqb Bool.eqb String.length].
      rewrite rfind_from_absent by assumption.
      rewrite str_length_app. cbn [String.length]. lia.
Qed.

Lemma cropped_filename_hidden_witness :
  cropped_filename ("." ++ "png") = "." ++ "png" ++ "_cropped"
  /\ cropped_filename ("scans" ++ "/." ++ "png") = "scans" ++ "/." ++ "png" ++ "_cropped".
Proof.
  apply (cropped_filename_hidden "scans" "png"); reflexivity.
Defined.

End KeepExtension.

(** * The command *)

Section MainProperties.

Variable R : Type.
Variable path_exists : string -> bool.
Variable imread : string -> option image.
Variable imwrite : string -> image -> result R.


(** Given one argument naming a file that decodes to a background image
    (every channel at most 30) wider than high, [main] writes nothing and
    ends in an uncaught [IndexError]. *)
Theorem main_wide_background_uncaught (prog name : string) (img : image) :
  path_exists name = true ->
  imread name = Some img ->
  (height img < width img)%nat ->
  all_background img 30 ->
  main R path_exists imread imwrite [prog; name] = Uncaught IndexError.
Proof.
  intros Hex Himg Hhw Hbg.
  unfold main. cbn [List.length Nat.eqb negb nth].
  rewrite Hex. cbn [negb]. rewrite Himg.
  now rewrite (wide_background_raises img 30 Hhw Hbg).
Qed.

End MainProperties.

(** Given one argument naming a file that decodes to an image at least as
    high as wide, the scanner raises nothing, and [main] ends as the
    encoder does on the slice, which is no larger than the image read: in an
    uncaught [cv2.error] when the slice has no pixel or cannot be encoded
    under the cropped name, and otherwise after writing it. *)
Theorem main_tall_image_outcome (R : Type) (path_exists : string -> bool)
  (imread : string -> option image) (encodable : string -> image -> bool)
  (write : string -> image -> R) (prog name : string) (img : image) :
  path_exists name = true ->
  imread name = Some img ->
  (width img <= height img)%nat ->
  exists rs cropped,
    find_non_black_pixels img 30 = Return rs
    /\ cropped = (let b := crop_box rs (Z.of_nat (width img))
                                    (Z.of_nat (height img)) 5 in
                  image_slice img (top b) (bottom b) (left b) (right b))
    /\ (height cropped <= height img)%nat
    /\ (width cropped <= width img)%nat
    /\ main R path_exists imread (cv2_imwrite R encodable write) [prog; name]
       = if (Nat.eqb (height cropped) 0 || Nat.eqb (width cropped) 0)%bool
         then Uncaught Cv2Error
         else if encodable (cropped_filename name) cropped
              then Finished (write (cropped_filename name) cropped)
              else Uncaught Cv2Error.
Proof.
  intros Hex Himg Hwh.
  destruct (tall_scan_returns img 30 Hwh) as [rs Hrs].
  set (b := crop_box rs (Z.of_nat (width img)) (Z.of_nat (height img)) 5).
  exists rs, (image_slice img (top b) (bottom b) (left b) (right b)).
  split; [exact Hrs |]. split; [reflexivity |].
  split; [| split].
  - unfold image_slice. cbn [height].
    pose proof (slice_bound_le (bottom b) (height img)). lia.
  - unfold image_slice. cbn [width].
    pose proof (slice_bound_le (right b) (width img)). lia.
  - unfold main. cbn [List.length Nat.eqb negb nth].
    rewrite Hex. cbn [negb]. rewrite Himg, Hrs.
    unfold crop_and_save, cv2_imwrite. fold b.
    destruct (Nat.eqb _ 0 || Nat.eqb _ 0)%bool; [reflexivity |].
    destruct (encodable _ _); reflexivity.
Qed.


Lemma main_tall_image_outcome_witness :
  exists rs cropped,
    find_non_black_pixels right_dot 30 = Return rs
    /\ cropped = (let b := crop_box rs (Z.of_nat (width right_dot))
                                    (Z.of_nat (height right_dot)) 5 in
                  image_slice right_dot (top b) (bottom b) (left b) (right b))
    /\ (height cropped <= height right_dot)%nat
    /\ (width cropped <= width right_dot)%nat
    /\ main (string * image) (fun _ => true) (fun _ => Some right_dot)
            (cv2_imwrite (string * image) (fun _ _ => true) pair)
            ["crop_cells.py"; "scan.png"]%string
       = if (Nat.eqb (height cropped) 0 || Nat.eqb (width cropped) 0)%bool
         then Uncaught Cv2Error
         else if (fun _ _ => true) (cropped_filename "scan.png") cropped
              then Finished (cropped_filename "scan.png", cropped)
              else Uncaught Cv2Error.
Proof.
  apply (main_tall_image_outcome (string * image) (fun _ => true)
           (fun _ => Some right_dot) (fun _ _ => true) pair
           "crop_cells.py" "scan.png" right_dot).
  - reflexivity.
  - reflexivity.
  - cbn. lia.
Defined.

Lemma main_wide_background_uncaught_witness :
  main (string * image) (fun _ => true) (fun _ => Some wide_black)
       (cv2_imwrite (string * image) (fun _ _ => true) pair)
       ["crop_cells.py"; "scan.png"]%string
  = Uncaught IndexError.
Proof.
  apply (main_wide_background_uncaught (string * image) (fun _ => true)
           (fun _ => Some wide_black)
           (cv2_imwrite (string * image) (fun _ _ => true) pair)
           "crop_cells.py" "scan.png" wide_black).
  - reflexivity.
  - reflexivity.
  - cbn. lia.
  - intros r c _ _. reflexivity.
Defined.

(** * Further properties of whole scans *)

(** On an image at least as high as wide the scanner is safe: it returns
    its four reports, and every index pair its loops can form lies inside
    the image, so nothing is read by wrap-around. *)
Theorem tall_image_scan_safe (img : image) (tolerance : Z) :
  (width img <= height img)%nat ->
  (exists rs, find_non_black_pixels img tolerance = Return rs)
  /\ forall c x, In x (range (width img)) ->
       in_bounds img (horizontal_index c img x)
       /\ in_bounds img (vertical_index c img x).
Proof.
  intros Hwh. split; [now apply tall_scan_returns |].
  intros c x Hx. apply in_range in Hx as (i & Hi & ->).
  apply indices_in_bounds; lia.
Qed.

Lemma tall_image_scan_safe_witness :
  (exists rs, find_non_black_pixels right_dot 30 = Return rs)
  /\ forall c x, In x (range (width right_dot)) ->
       in_bounds right_dot (horizontal_index c right_dot x)
       /\ in_bounds right_dot (vertical_index c right_dot x).
Proof.
  apply (tall_image_scan_safe right_dot 30). cbn. lia.
Defined.

Lemma corner_hit_at_zero (img : image) (tolerance : Z) (c : corner) (acc : report) :
  (1 <= height img)%nat -> (1 <= width img)%nat ->
  bright_corners img tolerance ->
  scan_corner img tolerance c acc = Return (0, Horizontal).
Proof.
  intros Hh Hw (Htl & Htr & Hbl & Hbr).
  apply (scan_corner_breaks img tolerance c 0); [lia | | intros j Hj; lia].
  left. split; [reflexivity |].
  assert (Bh : in_bounds img (horizontal_index c img (Z.of_nat 0)))
    by (apply indices_in_bounds; lia).
  unfold nonblack_at. rewrite (getitem_in_bounds _ _ Bh).
  eexists. split; [reflexivity |].
  destruct c; cbn [horizontal_index fst snd Z.of_nat Z.to_nat];
    rewrite ?Z.sub_0_r;
    replace (Z.to_nat (Z.of_nat (height img) - 1)) with (height img - 1)%nat by lia;
    replace (Z.to_nat (Z.of_nat (width img) - 1)) with (width img - 1)%nat by lia;
    assumption.
Qed.

(** An image whose content reaches its four corners has the report
    [(0, horizontal)] at every corner, whatever its shape: the box then
    cuts the margin off the left and off the right, and nothing off the top
    or the bottom. *)
Theorem borderless_image_loses_margin (img : image) (tolerance margin : Z) :
  (1 <= height img)%nat -> (1 <= width img)%nat ->
  bright_corners img tolerance ->
  find_non_black_pixels img tolerance
  = Return (mkReports (0, Horizontal) (0, Horizontal) (0, Horizontal) (0, Horizontal))
  /\ crop_box (mkReports (0, Horizontal) (0, Horizontal) (0, Horizontal) (0, Horizontal))
              (Z.of_nat (width img)) (Z.of_nat (height img)) margin
     = mkBox margin (Z.of_nat (width img) - margin) 0 (Z.of_nat (height img)).
Proof.
  intros Hh Hw Hbright. split.
  - unfold find_non_black_pixels.
    repeat (rewrite corner_hit_at_zero by assumption; cbn [bind]).
    reflexivity.
  - unfold crop_box.
    cbn [top_left top_right bottom_left bottom_right fst snd axis_eqb].
    f_equal; lia.
Qed.

Lemma borderless_image_loses_margin_witness :
  find_non_black_pixels (mkImage 1 3 (fun _ _ => red)) 30
  = Return (mkReports (0, Horizontal) (0, Horizontal) (0, Horizontal) (0, Horizontal))
  /\ crop_box (mkReports (0, Horizontal) (0, Horizontal) (0, Horizontal) (0, Horizontal))
              (Z.of_nat (width (mkImage 1 3 (fun _ _ => red))))
              (Z.of_nat (height (mkImage 1 3 (fun _ _ => red)))) 5
     = mkBox 5 (Z.of_nat (width (mkImage 1 3 (fun _ _ => red))) - 5) 0
             (Z.of_nat (height (mkImage 1 3 (fun _ _ => red)))).
Proof.
  apply (borderless_image_loses_margin (mkImage 1 3 (fun _ _ => red)) 30 5).
  - cbn. lia.
  - cbn. lia.
  - repeat split.
Defined.

(** ** Top and bottom *)

Lemma getitem_flip (img : image) (r c : Z) :
  0 <= r < Z.of_nat (height img) ->
  getitem (flip img) r c = getitem img (Z.of_nat (height img) - r - 1) c.
Proof.
  intros Hr. unfold getitem. cbn [height width flip].
  rewrite (axis_index_in_range r) by lia.
  rewrite (axis_index_in_range (Z.of_nat (height img) - r - 1)) by lia.
  cbn [bind].
  destruct (axis_index c (width img)) as [c' |]; cbn [bind px flip]; [| reflexivity].
  do 2 f_equal. lia.
Qed.

Lemma scan_body_flip (img : image) (tolerance : Z) (c : corner) (i : nat) :
  (i < height img)%nat ->
  scan_body (flip img) tolerance (flip_corner c) (Z.of_nat i)
  = scan_body img tolerance c (Z.of_nat i).
Proof.
  intros Hi. unfold scan_body.
  set (h := Z.of_nat (height img)).
  assert (E1 : h - (h - Z.of_nat i - 1) - 1 = Z.of_nat i) by lia.
  assert (E2 : h - (h - 1) - 1 = 0) by lia.
  assert (E3 : h - 0 - 1 = h - 1) by lia.
  assert (E4 : h - Z.of_nat i - 1 = h - Z.of_nat i - 1) by reflexivity.
  destruct c; cbn [flip_corner horizontal_index vertical_index fst snd];
    cbn [height width flip]; fold h;
    rewrite !getitem_flip by (fold h; lia); fold h;
    rewrite ?E1, ?E2, ?E3; reflexivity.
Qed.

(** On an image at least as high as wide the scanner treats top and bottom
    alike: the loop of a corner on the image turned upside down does what
    the loop of the opposite corner does on the image. *)
Theorem scan_corner_flip (img : image) (tolerance : Z) (c : corner) (acc : report) :
  (width img <= height img)%nat ->
  scan_corner (flip img) tolerance (flip_corner c) acc
  = scan_corner img tolerance c acc.
Proof.
  intros Hwh. unfold scan_corner. cbn [width flip].
  apply for_break_ext. intros x Hx.
  apply in_range in Hx as (i & Hi & ->).
  apply scan_body_flip. lia.
Qed.

Lemma scan_corner_flip_witness :
  scan_corner (flip right_dot) 30 (flip_corner TopRight) (0, NoAxis)
  = scan_corner right_dot 30 TopRight (0, NoAxis).
Proof.
  apply (scan_corner_flip right_dot 30 TopRight (0, NoAxis)). cbn. lia.
Defined.
